(** * Puyolib asset manager: a shallow embedding of [Puyolib/AssetManager.cpp]

    The asset manager keeps an ordered list of asset bundles (raw
    [AssetBundle*] pointers) and answers image, sound and animation-folder
    requests by asking the bundles in list order.  Bundles, handles, the
    front-end and the debug log are collaborators of the manager: the
    bundle's virtual methods are an interface ([AssetBundle.Impl]), bundle
    objects live in a heap indexed by address, and every call made on a
    collaborator is recorded in a trace.

    A pointer that may be null is an [option]; dereferencing a null or
    dangling pointer is a [Crash]. *)

From stdpp Require Import base option list strings pretty gmap.
From Stdlib Require Import ZArith Lia.

Open Scope Z_scope.

(** ** Collaborator types *)

(** [DebugMessageType]: the two severities used by the manager. *)
Inductive DebugMessageType := Debug | Error.

(** The front-end and the debug log are never inspected: an object of
    either class is represented by its identity. *)
Definition Frontend := positive.
Definition DebugLog := positive.

(** The token enumerations, by their [int] value ([static_cast<int>]). *)
Definition ImageToken := Z.
Definition SoundEffectToken := Z.
Definition AnimationToken := Z.
Definition PuyoCharacter := Z.

(** Handles returned by the bundles.  The manager only ever calls
    [error()] on them. *)
Record FeImage := { image_id : positive; image_error : bool }.
Record FeSound := { sound_id : positive; sound_error : bool }.

Class AssetHandle (H : Type) := error : H → bool.
#[global] Instance FeImage_handle : AssetHandle FeImage := image_error.
#[global] Instance FeSound_handle : AssetHandle FeSound := sound_error.

(** [std::string::empty()] *)
Definition empty_string (s : string) : bool :=
  match s with EmptyString => true | String _ _ => false end.

(** [std::to_string(int)] *)
Definition to_string (i : Z) : string := pretty i.

(** [int] arithmetic: a 32-bit two's complement counter. *)
Definition int_wrap (z : Z) : Z := (z + 2 ^ 31) mod 2 ^ 32 - 2 ^ 31.
Definition int_incr (n : Z) : Z := int_wrap (n + 1).
(** implicit conversion [int] to [bool] *)
Definition int_to_bool (n : Z) : bool := negb (n =? 0).

(** ** Asset bundles *)

Module AssetBundle.

(** The data members the manager reads or writes directly ([valid],
    [active], [m_debug]), and the rest of the object, which only the
    bundle's own methods look at. *)
Record t (S : Type) := mk {
  valid : bool;
  active : bool;
  m_debug : option DebugLog;
  state : S
}.
Arguments mk {S}.
Arguments valid {S}.
Arguments active {S}.
Arguments m_debug {S}.
Arguments state {S}.

Definition set_m_debug {S} (d : option DebugLog) (b : t S) : t S :=
  mk (valid b) (active b) d (state b).

(** The virtual methods called by the manager.  [init] and both
    [reload]s change the object; [clone] gives the contents of the copy;
    the remaining methods are answered from the object as it is. *)
Class Impl (S : Type) := {
  init : option Frontend → t S → t S;
  reload : t S → t S;
  reload_fe : option Frontend → t S → t S;
  clone : t S → t S;
  loadImage : ImageToken → string → t S → option FeImage;
  loadCharImage : ImageToken → PuyoCharacter → t S → option FeImage;
  loadSound : SoundEffectToken → string → t S → option FeSound;
  loadCharSound : SoundEffectToken → PuyoCharacter → t S → option FeSound;
  getCharAnimationsFolder : PuyoCharacter → t S → string;
  getAnimationFolder : AnimationToken → string → t S → string;
  listPuyoSkins : t S → gset string;
  listBackgrounds : t S → gset string;
  listCharacterSkins : t S → gset string;
  listSfx : t S → gset string
}.

End AssetBundle.

(** A bundle pointer: [None] is [nullptr]. *)
Definition ptr := option positive.

(** ** The machine: heap of bundles, trace of collaborator calls *)

Inductive Call :=
| CInit (fe : option Frontend)
| CReload
| CReloadFe (fe : option Frontend)
| CClone
| CLoadImage (token : ImageToken) (custom : string)
| CLoadCharImage (token : ImageToken) (character : PuyoCharacter)
| CLoadSound (token : SoundEffectToken) (custom : string)
| CLoadCharSound (token : SoundEffectToken) (character : PuyoCharacter)
| CGetCharAnimationsFolder (character : PuyoCharacter)
| CGetAnimationFolder (token : AnimationToken) (script_name : string)
| CListPuyoSkins
| CListBackgrounds
| CListCharacterSkins
| CListSfx.

Inductive Event :=
| EvCall (bundle : positive) (c : Call)
| EvLog (dbg : DebugLog) (msg : string) (ty : DebugMessageType).

#[global] Instance DebugMessageType_eq_dec : EqDecision DebugMessageType.
Proof. solve_decision. Defined.
#[global] Instance Call_eq_dec : EqDecision Call.
Proof. solve_decision. Defined.
#[global] Instance Event_eq_dec : EqDecision Event.
Proof. solve_decision. Defined.

Inductive Fault :=
| NullHandle      (* [error()] called through a null image or sound pointer *)
| NullDebugLog    (* [log()] called through a null [m_debug] *)
| InvalidBundle.  (* a null or dangling [AssetBundle*] was used *)

Section Machine.
Context {S : Type}.

Record World := mkWorld {
  heap : gmap positive (AssetBundle.t S);
  trace : list Event
}.

Inductive Outcome (A : Type) :=
| Done (a : A) (w : World)
| Crash (f : Fault).
Arguments Done {A}.
Arguments Crash {A}.

Definition M (A : Type) := World → Outcome A.

Definition ret {A} (a : A) : M A := λ w, Done a w.
Definition bind {A B} (m : M A) (k : A → M B) : M B :=
  λ w, match m w with
       | Done a w' => k a w'
       | Crash f => Crash f
       end.
Definition crash {A} (f : Fault) : M A := λ _, Crash f.

(** [*p] for a bundle pointer *)
Definition deref (p : ptr) : M (AssetBundle.t S) :=
  λ w, match p with
       | None => Crash InvalidBundle
       | Some a => match heap w !! a with
                   | Some b => Done b w
                   | None => Crash InvalidBundle
                   end
       end.

Definition emit (e : Event) : M unit :=
  λ w, Done tt (mkWorld (heap w) (trace w ++ [e])).

Definition store (a : positive) (b : AssetBundle.t S) : M unit :=
  λ w, Done tt (mkWorld (<[a := b]> (heap w)) (trace w)).

End Machine.

Arguments World : clear implicits.
Arguments M : clear implicits.
Arguments Outcome : clear implicits.
Arguments Done {S A}.
Arguments Crash {S A}.

Declare Scope asset_scope.
Notation "'let*' x := m 'in' k" := (bind m (λ x, k))
  (at level 10, x name, m at level 100, k at level 200, only parsing)
  : asset_scope.
Notation "'let*' ' pat := m 'in' k" := (bind m (λ x, match x with pat => k end))
  (at level 10, pat pattern, m at level 100, k at level 200, only parsing)
  : asset_scope.
Notation "m >> k" := (bind m (λ _, k))
  (at level 100, k at level 200, right associativity, only parsing)
  : asset_scope.
Delimit Scope asset_scope with asset.
Open Scope asset_scope.

Section Primitives.
Context {S : Type}.

(** A call of a method that changes the bundle: [p->method(args)]. *)
Definition invoke (p : ptr) (c : Call)
    (f : AssetBundle.t S → AssetBundle.t S) : M S unit :=
  let* b := deref p in
  match p with
  | Some a => emit (EvCall a c) >> store a (f b)
  | None => crash InvalidBundle
  end.

(** A call of a method answered from the bundle as it is. *)
Definition query {R} (p : ptr) (c : Call) (f : AssetBundle.t S → R) : M S R :=
  let* b := deref p in
  match p with
  | Some a => emit (EvCall a c) >> ret (f b)
  | None => crash InvalidBundle
  end.

(** A direct write of a data member of the bundle: [p->field = v]. *)
Definition assign (p : ptr) (f : AssetBundle.t S → AssetBundle.t S) : M S unit :=
  let* b := deref p in
  match p with
  | Some a => store a (f b)
  | None => crash InvalidBundle
  end.

(** [new]: the object is placed at an address not in use. *)
Definition alloc (b : AssetBundle.t S) : M S ptr :=
  λ w, let a := fresh (dom (heap w)) in
       Done (Some a) (mkWorld (<[a := b]> (heap w)) (trace w)).

(** [delete p]: nothing for a null pointer; the object is destroyed. *)
Definition delete_ptr (p : ptr) : M S unit :=
  λ w, match p with
       | None => Done tt w
       | Some a => match heap w !! a with
                   | Some _ => Done tt (mkWorld (delete a (heap w)) (trace w))
                   | None => Crash InvalidBundle
                   end
       end.

(** [dbg->log(msg, ty)] *)
Definition log (dbg : option DebugLog) (msg : string) (ty : DebugMessageType)
    : M S unit :=
  match dbg with
  | Some d => emit (EvLog d msg ty)
  | None => crash NullDebugLog
  end.

(** [target->error()] through a pointer that may be null *)
Definition handle_error {H} `{AssetHandle H} (target : option H) : M S bool :=
  match target with
  | Some h => ret (error h)
  | None => crash NullHandle
  end.

End Primitives.

(** ** The asset manager *)

Module AssetManager.

Record t := mk {
  m_bundleList : list ptr;
  m_front : option Frontend;
  m_debug : option DebugLog;
  activated : bool
}.

(** Modelled from the spec: the member initialisers of [AssetManager.h],
    which is not part of the sources at hand.  A default-constructed
    manager has an empty registry, no collaborator bound, and is not
    activated. *)
Definition default : t := mk [] None None false.

Definition set_bundleList (l : list ptr) (this : t) : t :=
  mk l (m_front this) (m_debug this) (activated this).
Definition set_activated (a : bool) (this : t) : t :=
  mk (m_bundleList this) (m_front this) (m_debug this) a.

(** [target != nullptr && !target->error()] *)
Definition loaded_ok {H} `{AssetHandle H} (target : option H) : bool :=
  match target with
  | Some h => negb (error h)
  | None => false
  end.

(** [target == nullptr || target->error()] *)
Definition null_or_error {H} `{AssetHandle H} (target : option H) : bool :=
  match target with
  | Some h => error h
  | None => true
  end.

Section Methods.
Context {S : Type} `{!AssetBundle.Impl S}.

(** [toString] of the project, at type [int]. *)
Variable toString : Z → string.

(** [AssetManager::AssetManager(fe, dbg)] *)
Definition construct (fe : option Frontend) (dbg : option DebugLog) : M S t :=
  (match dbg with
   | Some _ => log dbg "Asset manager loaded" Debug
   | None => ret tt
   end) >>
  ret (mk [] fe dbg (activated default)).

(** [AssetManager::~AssetManager] *)
Definition destroy (this : t) : M S unit :=
  match m_debug this with
  | Some _ => log (m_debug this) "Asset manager destroyed" Debug
  | None => ret tt
  end.

(** The loop of [reloadBundles], with its counter. *)
Fixpoint reloadBundles_loop (fe : option Frontend) (number_of_loaded : Z)
    (l : list ptr) : M S Z :=
  match l with
  | [] => ret number_of_loaded
  | bundle :: rest =>
      invoke bundle (CReloadFe fe) (AssetBundle.reload_fe fe) >>
      reloadBundles_loop fe (int_incr number_of_loaded) rest
  end.

(** [AssetManager::reloadBundles] *)
Definition reloadBundles (this : t) : M S bool :=
  let* number_of_loaded :=
    reloadBundles_loop (m_front this) 0 (m_bundleList this) in
  ret (int_to_bool number_of_loaded).

(** [AssetManager::activate] *)
Definition activate (this : t) (fe : option Frontend)
    (debug : option DebugLog) : M S t :=
  let this := mk (m_bundleList this) fe debug (activated this) in
  reloadBundles this >>
  match m_front this, m_debug this with
  | Some _, Some _ => ret (set_activated true this)
  | _, _ => ret (set_activated false this)
  end.

(** [AssetManager::loadBundle] *)
Definition loadBundle (this : t) (bundle : ptr) (priority : Z)
    : M S (bool * t) :=
  invoke bundle (CInit (m_front this)) (AssetBundle.init (m_front this)) >>
  invoke bundle CReload AssetBundle.reload >>
  assign bundle (AssetBundle.set_m_debug (m_debug this)) >>
  let* b := deref bundle in
  let this :=
    if AssetBundle.valid b
    then set_bundleList (m_bundleList this ++ [bundle]) this
    else this in
  let* b := deref bundle in
  ret (AssetBundle.valid b, this).

(** [AssetManager::deleteBundle]; [std::list::remove] erases every
    element equal to its argument. *)
Definition deleteBundle (this : t) (bundle : ptr) : M S (bool * t) :=
  let this :=
    set_bundleList (filter (λ p, p ≠ bundle) (m_bundleList this)) this in
  delete_ptr bundle >>
  ret (false, this).

(** The loop of [unloadAll]: [before] is the part of the list behind
    the iterator [i], [rest] the part from [i] on. *)
Fixpoint unloadAll_loop (before rest : list ptr) : M S (list ptr) :=
  match rest with
  | [] => ret before
  | i :: rest =>
      let* b := deref i in
      if negb (AssetBundle.active b)
      then unloadAll_loop before rest
      else unloadAll_loop (before ++ [i]) rest
  end.

(** [AssetManager::unloadAll] *)
Definition unloadAll (this : t) : M S (bool * t) :=
  match m_bundleList this with
  | [] => ret (true, this)
  | _ :: _ =>
      let* l := unloadAll_loop [] (m_bundleList this) in
      ret (false, set_bundleList l this)
  end.

(** The range-for loop shared by the six lookups: each bundle is asked
    in turn; [stop] is the condition of the [break], [otherwise] what
    the else branch leaves in [target]. *)
Fixpoint lookup_loop {T} (ask : ptr → M S T) (stop : T → M S bool)
    (otherwise : T → T) (target : T) (l : list ptr) : M S T :=
  match l with
  | [] => ret target
  | bundle :: rest =>
      let* target := ask bundle in
      let* found := stop target in
      if found then ret target
      else lookup_loop ask stop otherwise (otherwise target) rest
  end.

Definition image_loop (ask : ptr → M S (option FeImage)) :=
  lookup_loop ask (λ target, ret (loaded_ok target)) id None.

Definition sound_loop (ask : ptr → M S (option FeSound)) :=
  lookup_loop ask
    (λ target, let* e := handle_error target in ret (negb e))
    (λ _, None) None.

Definition folder_loop (ask : ptr → M S string) :=
  lookup_loop ask (λ target, ret (negb (empty_string target))) id "".

(** [AssetManager::loadImage(token, custom)] *)
Definition loadImage (this : t) (token : ImageToken) (custom : string)
    : M S (option FeImage) :=
  let* target :=
    image_loop (λ bundle, query bundle (CLoadImage token custom)
                            (AssetBundle.loadImage token custom))
      (m_bundleList this) in
  (if null_or_error target
   then log (m_debug this)
          ("Error loading image token " +:+ toString token
             +:+ " custom " +:+ custom) Error
   else ret tt) >>
  ret target.

(** [AssetManager::loadImage(token, character)] *)
Definition loadImage_character (this : t) (token : ImageToken)
    (character : PuyoCharacter) : M S (option FeImage) :=
  let* target :=
    image_loop (λ bundle, query bundle (CLoadCharImage token character)
                            (AssetBundle.loadCharImage token character))
      (m_bundleList this) in
  (if null_or_error target
   then log (m_debug this)
          ("Error loading image token " +:+ toString token
             +:+ " character " +:+ to_string character) Error
   else ret tt) >>
  ret target.

(** [AssetManager::loadSound(token, custom)] *)
Definition loadSound (this : t) (token : SoundEffectToken) (custom : string)
    : M S (option FeSound) :=
  let* target :=
    sound_loop (λ bundle, query bundle (CLoadSound token custom)
                            (AssetBundle.loadSound token custom))
      (m_bundleList this) in
  (if null_or_error target
   then log (m_debug this)
          ("Error loading sound token " +:+ toString token
             +:+ " custom " +:+ custom) Error
   else ret tt) >>
  ret target.

(** [AssetManager::loadSound(token, character)] *)
Definition loadSound_character (this : t) (token : SoundEffectToken)
    (character : PuyoCharacter) : M S (option FeSound) :=
  let* target :=
    sound_loop (λ bundle, query bundle (CLoadCharSound token character)
                            (AssetBundle.loadCharSound token character))
      (m_bundleList this) in
  (if null_or_error target
   then log (m_debug this)
          ("Error loading sound token " +:+ toString token
             +:+ " character " +:+ to_string character) Error
   else ret tt) >>
  ret target.

(** [AssetManager::getAnimationFolder(character)] *)
Definition getAnimationFolder_character (this : t)
    (character : PuyoCharacter) : M S string :=
  let* target :=
    folder_loop (λ bundle, query bundle (CGetCharAnimationsFolder character)
                             (AssetBundle.getCharAnimationsFolder character))
      (m_bundleList this) in
  (if empty_string target
   then log (m_debug this)
          ("Error loading animation script character "
             +:+ to_string character) Error
   else ret tt) >>
  ret target.

(** [AssetManager::getAnimationFolder(token, script_name)] *)
Definition getAnimationFolder (this : t) (token : AnimationToken)
    (script_name : string) : M S string :=
  let* target :=
    folder_loop (λ bundle, query bundle (CGetAnimationFolder token script_name)
                             (AssetBundle.getAnimationFolder token script_name))
      (m_bundleList this) in
  (if empty_string target
   then log (m_debug this)
          ("Error loading animation script token " +:+ toString token) Error
   else ret tt) >>
  ret target.

(** The nested loops of the four enumeration queries: every value of
    every bundle's listing is inserted into [result]. *)
Definition insert_all (values : gset string) (result : gset string)
    : gset string :=
  foldl (λ result value, {[value]} ∪ result) result (elements values).

Fixpoint list_loop (ask : ptr → M S (gset string)) (result : gset string)
    (l : list ptr) : M S (gset string) :=
  match l with
  | [] => ret result
  | bundle :: rest =>
      let* values := ask bundle in
      list_loop ask (insert_all values result) rest
  end.

(** [AssetManager::listPuyoSkins] *)
Definition listPuyoSkins (this : t) : M S (gset string) :=
  list_loop (λ bundle, query bundle CListPuyoSkins AssetBundle.listPuyoSkins)
    ∅ (m_bundleList this).

(** [AssetManager::listBackgrounds] *)
Definition listBackgrounds (this : t) : M S (gset string) :=
  list_loop (λ bundle, query bundle CListBackgrounds AssetBundle.listBackgrounds)
    ∅ (m_bundleList this).

(** [AssetManager::listCharacterSkins] *)
Definition listCharacterSkins (this : t) : M S (gset string) :=
  list_loop (λ bundle, query bundle CListCharacterSkins
                         AssetBundle.listCharacterSkins)
    ∅ (m_bundleList this).

(** [AssetManager::listSfx] *)
Definition listSfx (this : t) : M S (gset string) :=
  list_loop (λ bundle, query bundle CListSfx AssetBundle.listSfx)
    ∅ (m_bundleList this).

(** The loop of [clone]: [current->loadBundle(bundle->clone())], the
    priority left to its default. *)
Fixpoint clone_loop (default_priority : Z) (current : t) (l : list ptr)
    : M S t :=
  match l with
  | [] => ret current
  | bundle :: rest =>
      let* copy := query bundle CClone AssetBundle.clone in
      let* fresh_bundle := alloc copy in
      let* '(_, current) := loadBundle current fresh_bundle default_priority in
      clone_loop default_priority current rest
  end.

(** [AssetManager::clone] *)
Definition clone (default_priority : Z) (this : t) : M S t :=
  let* current := clone_loop default_priority default (m_bundleList this) in
  activate current (m_front this) (m_debug this).

End Methods.

End AssetManager.

(** ** A bundle implementation with fixed answers

    Used to run the manager on concrete registries.  [init] decides
    [valid] from [usable]; every lookup ignores its arguments. *)

Module Pack.

Record t := mk {
  usable : bool;
  image : option FeImage;
  sound : option FeSound;
  folder : string;
  names : list string
}.

#[global] Instance impl : AssetBundle.Impl t := {|
  AssetBundle.init := λ _ b,
    AssetBundle.mk (usable (AssetBundle.state b)) (AssetBundle.active b)
      (AssetBundle.m_debug b) (AssetBundle.state b);
  AssetBundle.reload := λ b, b;
  AssetBundle.reload_fe := λ _ b, b;
  AssetBundle.clone := λ b, b;
  AssetBundle.loadImage := λ _ _ b, image (AssetBundle.state b);
  AssetBundle.loadCharImage := λ _ _ b, image (AssetBundle.state b);
  AssetBundle.loadSound := λ _ _ b, sound (AssetBundle.state b);
  AssetBundle.loadCharSound := λ _ _ b, sound (AssetBundle.state b);
  AssetBundle.getCharAnimationsFolder := λ _ b, folder (AssetBundle.state b);
  AssetBundle.getAnimationFolder := λ _ _ b, folder (AssetBundle.state b);
  AssetBundle.listPuyoSkins := λ b, list_to_set (names (AssetBundle.state b));
  AssetBundle.listBackgrounds := λ b, list_to_set (names (AssetBundle.state b));
  AssetBundle.listCharacterSkins := λ b, list_to_set (names (AssetBundle.state b));
  AssetBundle.listSfx := λ b, list_to_set (names (AssetBundle.state b))
|}.

(** A live, valid, active bundle holding the given answers. *)
Definition bundle (p : t) : AssetBundle.t t := AssetBundle.mk true true None p.

Definition good_image : FeImage := {| image_id := 7; image_error := false |}.
Definition bad_image : FeImage := {| image_id := 8; image_error := true |}.
Definition good_sound : FeSound := {| sound_id := 9; sound_error := false |}.
Definition bad_sound : FeSound := {| sound_id := 10; sound_error := true |}.

(** supplies nothing *)
Definition silent : t := mk true None None "" [].
(** supplies everything, without error *)
Definition full : t :=
  mk true (Some good_image) (Some good_sound) "anim/arle" ["arle"; "fever"].
(** answers with handles that report an error *)
Definition broken : t :=
  mk true (Some bad_image) (Some bad_sound) "" ["fever"; "classic"].
(** does not survive [init] *)
Definition unusable : t := mk false None None "" [].

Definition world (bs : list (positive * t)) : World t :=
  mkWorld (list_to_map (prod_map id bundle <$> bs)) [].

(** A manager on the registry [l], activated, with front-end 1 and debug
    log 2; an unbound one. *)
Definition manager (l : list ptr) : AssetManager.t :=
  AssetManager.mk l (Some 1%positive) (Some 2%positive) true.
Definition unbound_manager (l : list ptr) : AssetManager.t :=
  AssetManager.mk l None None false.

(** Two addresses for bundles. *)
Definition A : positive := 1%positive.
Definition B : positive := 2%positive.

End Pack.

(** ** Vocabulary of the statements *)

Section Vocabulary.
Context {S : Type} `{!AssetBundle.Impl S}.

(** The object a bundle pointer points to, if any. *)
Definition peek (h : gmap positive (AssetBundle.t S)) (p : ptr)
    : option (AssetBundle.t S) :=
  match p with
  | Some a => h !! a
  | None => None
  end.

(** The pointer is neither null nor dangling. *)
Definition live (h : gmap positive (AssetBundle.t S)) (p : ptr) : Prop :=
  is_Some (peek h p).

(** One call [c] on each bundle of [l], in list order. *)
Definition calls (c : Call) (l : list ptr) : list Event :=
  omap (λ p : ptr, (λ a, EvCall a c) <$> p) l.

(** The heap after [f] was applied to the object at [p]. *)
Definition update (f : AssetBundle.t S → AssetBundle.t S) (p : ptr)
    (h : gmap positive (AssetBundle.t S)) : gmap positive (AssetBundle.t S) :=
  match p with
  | Some a => match h !! a with
              | Some b => <[a := f b]> h
              | None => h
              end
  | None => h
  end.

(** The heap after [reload(fe)] ran on every entry of [l], in order. *)
Definition reloaded (fe : option Frontend) (l : list ptr)
    (h : gmap positive (AssetBundle.t S)) : gmap positive (AssetBundle.t S) :=
  foldl (λ h p, update (AssetBundle.reload_fe fe) p h) h l.

(** A bundle after the insertion path of a manager bound to [fe] and
    [dbg]: what [init(fe)] and then [reload()] made of it, with its
    [m_debug] member now [dbg]. *)
Definition inserted (fe : option Frontend) (dbg : option DebugLog)
    (b : AssetBundle.t S) : AssetBundle.t S :=
  let reloaded_bundle := AssetBundle.reload (AssetBundle.init fe b) in
  {| AssetBundle.valid := AssetBundle.valid reloaded_bundle;
     AssetBundle.active := AssetBundle.active reloaded_bundle;
     AssetBundle.m_debug := dbg;
     AssetBundle.state := AssetBundle.state reloaded_bundle |}.

(** The [active] flag behind a pointer. *)
Definition is_active (h : gmap positive (AssetBundle.t S)) (p : ptr) : bool :=
  match peek h p with
  | Some b => AssetBundle.active b
  | None => false
  end.

(** What a bundle answers to a request [f], read through its pointer. *)
Definition answer {T} (h : gmap positive (AssetBundle.t S))
    (f : AssetBundle.t S → T) (p : ptr) : option T :=
  f <$> peek h p.

(** The candidate left in [target] once the bundles of [l] were asked
    and none of them ended the loop. *)
Definition carried {T} (h : gmap positive (AssetBundle.t S))
    (f : AssetBundle.t S → T) (otherwise : T → T) (target : T)
    (l : list ptr) : T :=
  foldl (λ target p, match peek h p with
                     | Some b => otherwise (f b)
                     | None => target
                     end) target l.

(** The answer of the last bundle of [l], or [dflt] for an empty list. *)
Definition last_answer {T} (h : gmap positive (AssetBundle.t S))
    (f : AssetBundle.t S → T) (dflt : T) (l : list ptr) : T :=
  default dflt (last l ≫= answer h f).

(** The bundle behind [p] has no clean handle for the request: its
    answer is null or reports an error. *)
Definition fails {H} `{AssetHandle H} (h : gmap positive (AssetBundle.t S))
    (f : AssetBundle.t S → option H) (p : ptr) : Prop :=
  ∃ r, answer h f p = Some r ∧ AssetManager.loaded_ok r = false.

(** The bundle behind [p] answers with a handle, and the handle reports
    an error. *)
Definition errors {H} `{AssetHandle H} (h : gmap positive (AssetBundle.t S))
    (f : AssetBundle.t S → option H) (p : ptr) : Prop :=
  ∃ s, answer h f p = Some (Some s) ∧ error s = true.

(** The bundle behind [p] answers with the empty path. *)
Definition no_folder (h : gmap positive (AssetBundle.t S))
    (f : AssetBundle.t S → string) (p : ptr) : Prop :=
  ∃ r, answer h f p = Some r ∧ empty_string r = true.

(** A bundle consulted by a sound lookup answers with a null handle:
    the registry entries before it all answered with errored handles. *)
Definition consulted_null (h : gmap positive (AssetBundle.t S))
    (f : AssetBundle.t S → option FeSound) (l : list ptr) : Prop :=
  ∃ pre p post,
    l = pre ++ p :: post ∧ Forall (errors h f) pre ∧ answer h f p = Some None.

(** Some bundle of [l] has [x] in its listing [f]. *)
Definition listed (h : gmap positive (AssetBundle.t S))
    (f : AssetBundle.t S → gset string) (l : list ptr) (x : string) : Prop :=
  ∃ p b, p ∈ l ∧ peek h p = Some b ∧ x ∈ f b.

(** The enumeration [run] of a manager is the union of the listings [f]
    of its bundles: it asks every bundle once (call [c]), a name is in
    the result exactly when some bundle lists it, and a manager holding
    the same bundles in another order gets the same set. *)
Definition enumerates (run : AssetManager.t → M S (gset string)) (c : Call)
    (f : AssetBundle.t S → gset string) (this : AssetManager.t)
    (w : World S) : Prop :=
  ∃ result,
    run this w
    = Done result
        (mkWorld (heap w) (trace w ++ calls c (AssetManager.m_bundleList this)))
    ∧ (∀ x, x ∈ result ↔ listed (heap w) f (AssetManager.m_bundleList this) x)
    ∧ (∀ this',
         AssetManager.m_bundleList this' ≡ₚ AssetManager.m_bundleList this →
         ∃ w', run this' w = Done result w').

(** What the constructor and the destructor add to the trace. *)
Definition construct_entry (dbg : option DebugLog) : list Event :=
  match dbg with
  | Some d => [EvLog d "Asset manager loaded" Debug]
  | None => []
  end.

Definition destroy_entry (dbg : option DebugLog) : list Event :=
  match dbg with
  | Some d => [EvLog d "Asset manager destroyed" Debug]
  | None => []
  end.

(** The debug-log entries of a trace, in order. *)
Definition logs (tr : list Event) : list (DebugLog * string * DebugMessageType) :=
  omap (λ e, match e with
             | EvLog d msg ty => Some (d, msg, ty)
             | EvCall _ _ => None
             end) tr.

(** The value a run returns, if it returns. *)
Definition result_of {A} (o : Outcome S A) : option A :=
  match o with
  | Done a _ => Some a
  | Crash _ => None
  end.

(** The bundle behind [p] has a clean handle for the request. *)
Definition clean {H} `{AssetHandle H} (h : gmap positive (AssetBundle.t S))
    (f : AssetBundle.t S → option H) (p : ptr) : Prop :=
  ∃ r, answer h f p = Some r ∧ AssetManager.loaded_ok r = true.

(** Some active bundle of [l] has [x] in its listing [f]. *)
Definition listed_active (h : gmap positive (AssetBundle.t S))
    (f : AssetBundle.t S → gset string) (l : list ptr) (x : string) : Prop :=
  ∃ p b, p ∈ l ∧ peek h p = Some b ∧ AssetBundle.active b = true ∧ x ∈ f b.

(** The bundle behind [p] answers with a handle, not with null. *)
Definition non_null {H} (h : gmap positive (AssetBundle.t S))
    (f : AssetBundle.t S → option H) (p : ptr) : Prop :=
  ∃ s, answer h f p = Some (Some s).

(** The bundle behind [p] answers with a non-empty path. *)
Definition has_folder (h : gmap positive (AssetBundle.t S))
    (f : AssetBundle.t S → string) (p : ptr) : Prop :=
  ∃ r, answer h f p = Some r ∧ empty_string r = false.

End Vocabulary.

Arguments update : simpl never.

(** Every pointer of a concrete registry is live in a concrete heap. *)
Ltac all_live :=
  repeat (match goal with
          | |- Forall ?P ?l => let l' := eval hnf in l in change (Forall P l')
          end;
          first [by constructor
                |apply Forall_cons; split; [eexists; reflexivity|]]).

(** Every bundle of a concrete registry is rejected by a lookup. *)
Ltac all_rejected :=
  repeat (match goal with
          | |- Forall ?P ?l => let l' := eval hnf in l in change (Forall P l')
          end;
          first [by constructor
                |apply Forall_cons; split; [eexists; split; reflexivity|]]).

(** ** Running the primitives *)

Section PrimitiveLemmas.
Context {S : Type} `{!AssetBundle.Impl S}.
Implicit Types (w : World S) (h : gmap positive (AssetBundle.t S)).
Implicit Types (p : ptr) (a : positive) (b : AssetBundle.t S).

Lemma live_inv h p : live h p → ∃ a b, p = Some a ∧ h !! a = Some b.
Proof.
  intros [b Hb]. destruct p as [a|]; [|discriminate].
  by exists a, b.
Qed.

Lemma bind_done {A B} (m : M S A) (k : A → M S B) w x w' :
  m w = Done x w' → bind m k w = k x w'.
Proof. unfold bind. by intros ->. Qed.

Lemma bind_crash {A B} (m : M S A) (k : A → M S B) w f :
  m w = Crash f → bind m k w = Crash f.
Proof. unfold bind. by intros ->. Qed.

Lemma deref_live a b w : heap w !! a = Some b → deref (Some a) w = Done b w.
Proof. unfold deref. by intros ->. Qed.

Lemma deref_dead p w : ¬ live (heap w) p → deref p w = Crash InvalidBundle.
Proof.
  unfold live, deref. destruct p as [a|]; simpl; [|done].
  destruct (heap w !! a); [|done]. intros []. by eexists.
Qed.

Lemma query_live {R} a b c (f : AssetBundle.t S → R) w :
  heap w !! a = Some b →
  query (Some a) c f w = Done (f b) (mkWorld (heap w) (trace w ++ [EvCall a c])).
Proof. intros Hb. unfold query. by rewrite (bind_done _ _ _ _ _ (deref_live _ _ _ Hb)). Qed.

Lemma query_dead {R} p c (f : AssetBundle.t S → R) w :
  ¬ live (heap w) p → query p c f w = Crash InvalidBundle.
Proof. intros Hp. unfold query. by rewrite (bind_crash _ _ _ _ (deref_dead _ _ Hp)). Qed.

Lemma invoke_live a b c f w :
  heap w !! a = Some b →
  invoke (Some a) c f w
  = Done tt (mkWorld (update f (Some a) (heap w)) (trace w ++ [EvCall a c])).
Proof.
  intros Hb. unfold invoke.
  rewrite (bind_done _ _ _ _ _ (deref_live _ _ _ Hb)).
  unfold update. by rewrite Hb.
Qed.

Lemma assign_live a b f w :
  heap w !! a = Some b →
  assign (Some a) f w = Done tt (mkWorld (update f (Some a) (heap w)) (trace w)).
Proof.
  intros Hb. unfold assign.
  rewrite (bind_done _ _ _ _ _ (deref_live _ _ _ Hb)).
  unfold update. by rewrite Hb.
Qed.

Lemma update_lookup f a b h :
  h !! a = Some b → update f (Some a) h !! a = Some (f b).
Proof. intros Hb. unfold update. rewrite Hb. apply lookup_insert_eq. Qed.

Lemma update_lookup_ne f p a h :
  p ≠ Some a → update f p h !! a = h !! a.
Proof.
  intros Hne. unfold update. destruct p as [a'|]; [|done].
  destruct (h !! a'); [|done]. apply lookup_insert_ne. congruence.
Qed.

Lemma update_live f p q h : live (update f p h) q ↔ live h q.
Proof.
  unfold live. destruct q as [a|]; simpl; [|done].
  destruct (decide (p = Some a)) as [->|Hne].
  - unfold update. destruct (h !! a) as [b|] eqn:Hb.
    + rewrite lookup_insert_eq. split; intros _; by eexists.
    + by rewrite Hb.
  - by rewrite update_lookup_ne.
Qed.

Lemma Forall_live_update f p h l :
  Forall (live h) l → Forall (live (update f p h)) l.
Proof.
  intros Hl. eapply Forall_impl; [exact Hl|].
  intros q. by rewrite update_live.
Qed.

Lemma calls_cons c a l : calls c (Some a :: l) = EvCall a c :: calls c l.
Proof. done. Qed.

Lemma calls_app c l1 l2 : calls c (l1 ++ l2) = calls c l1 ++ calls c l2.
Proof. unfold calls. apply omap_app. Qed.

Lemma calls_length c h l : Forall (live h) l → length (calls c l) = length l.
Proof.
  induction 1 as [|p l Hp _ IH]; [done|].
  destruct (live_inv _ _ Hp) as (a & b & -> & _).
  rewrite calls_cons. simpl. by rewrite IH.
Qed.

End PrimitiveLemmas.

(** ** The bundle registry: insertion, removal, pruning, reload *)

Section Registry.
Context {S : Type} `{!AssetBundle.Impl S}.
Implicit Types (w : World S) (h : gmap positive (AssetBundle.t S)).
Implicit Types (p : ptr) (a : positive) (b : AssetBundle.t S).
Implicit Types (this : AssetManager.t) (l : list ptr).

Lemma update_update f g a b h :
  h !! a = Some b →
  update g (Some a) (update f (Some a) h) = <[a := g (f b)]> h.
Proof.
  intros Hb. unfold update at 1. rewrite (update_lookup _ _ _ _ Hb).
  unfold update. rewrite Hb. apply insert_insert_eq.
Qed.

Lemma loadBundle_run this a b priority w :
  heap w !! a = Some b →
  let b' := inserted (AssetManager.m_front this) (AssetManager.m_debug this) b in
  AssetManager.loadBundle this (Some a) priority w
  = Done (AssetBundle.valid b',
          if AssetBundle.valid b'
          then AssetManager.set_bundleList
                 (AssetManager.m_bundleList this ++ [Some a]) this
          else this)
      (mkWorld (<[a := b']> (heap w))
         (trace w ++ [EvCall a (CInit (AssetManager.m_front this));
                      EvCall a CReload])).
Proof.
  intros Hb b'.
  unfold AssetManager.loadBundle.
  rewrite (bind_done _ _ _ _ _ (invoke_live _ _ _ _ _ Hb)).
  assert (H1 := update_lookup (AssetBundle.init (AssetManager.m_front this)) _ _ _ Hb).
  erewrite bind_done; [|eapply invoke_live; simpl; exact H1].
  simpl. rewrite (update_update _ _ _ _ _ Hb).
  erewrite bind_done; [|eapply assign_live; simpl; apply lookup_insert_eq].
  simpl.
  assert (Hfinal : update (AssetBundle.set_m_debug (AssetManager.m_debug this))
            (Some a)
            (<[a := AssetBundle.reload
                      (AssetBundle.init (AssetManager.m_front this) b)]> (heap w))
          = <[a := b']> (heap w)).
  { unfold update. rewrite lookup_insert_eq. apply insert_insert_eq. }
  rewrite Hfinal.
  erewrite bind_done; [|apply deref_live; simpl; apply lookup_insert_eq].
  erewrite bind_done; [|apply deref_live; simpl; apply lookup_insert_eq].
  unfold ret. by rewrite <- !app_assoc.
Qed.


(** C3. [loadBundle(b, p)] on a live bundle runs [init(m_front)],
    [reload()] and the hand-over of [m_debug] on [b], in this order: the
    bundle ends up as [init] and [reload] left it, except that its
    [m_debug] is now the manager's.  The call then appends [b] at the end
    of the registry exactly when [b] is valid at that point, and returns
    that validity.  The registry keeps its earlier entries in their order,
    and the priority changes nothing. *)
Theorem loadBundle_appends_iff_valid this a b priority w :
  heap w !! a = Some b →
  let reloaded_bundle :=
    AssetBundle.reload (AssetBundle.init (AssetManager.m_front this) b) in
  let b' := inserted (AssetManager.m_front this) (AssetManager.m_debug this) b in
  AssetManager.loadBundle this (Some a) priority w
  = Done (AssetBundle.valid b',
          if AssetBundle.valid b'
          then AssetManager.set_bundleList
                 (AssetManager.m_bundleList this ++ [Some a]) this
          else this)
      (mkWorld (<[a := b']> (heap w))
         (trace w ++ [EvCall a (CInit (AssetManager.m_front this));
                      EvCall a CReload]))
  ∧ AssetBundle.m_debug b' = AssetManager.m_debug this
  ∧ AssetBundle.valid b' = AssetBundle.valid reloaded_bundle
  ∧ AssetBundle.active b' = AssetBundle.active reloaded_bundle
  ∧ AssetBundle.state b' = AssetBundle.state reloaded_bundle
  ∧ (∀ r this' w',
       AssetManager.loadBundle this (Some a) priority w = Done (r, this') w' →
       r = AssetBundle.valid reloaded_bundle
       ∧ (∃ stored, heap w' !! a = Some stored
                    ∧ AssetBundle.m_debug stored = AssetManager.m_debug this
                    ∧ AssetBundle.valid stored = r)
       ∧ (r = true →
          AssetManager.m_bundleList this'
          = AssetManager.m_bundleList this ++ [Some a])
       ∧ (r = false → this' = this))
  ∧ ∀ priority',
      AssetManager.loadBundle this (Some a) priority' w
      = AssetManager.loadBundle this (Some a) priority w.
Proof.
  intros Hb reloaded_bundle b'.
  pose proof (loadBundle_run this a b priority w Hb) as Hrun.
  cbv zeta in Hrun. fold b' in Hrun.
  split; [exact Hrun|]. repeat (split; [reflexivity|]).
  split; [|done].
  intros r this' w' Hdone. rewrite Hrun in Hdone.
  injection Hdone as <- <- <-. split; [reflexivity|]. split; [|split].
  - exists b'. split; [apply lookup_insert_eq|]. by split.
  - by intros ->.
  - by intros ->.
Qed.

Lemma deleteBundle_run this a w :
  live (heap w) (Some a) →
  AssetManager.deleteBundle this (Some a) w
  = Done (false,
          AssetManager.set_bundleList
            (filter (λ p, p ≠ Some a) (AssetManager.m_bundleList this)) this)
      (mkWorld (delete a (heap w)) (trace w)).
Proof.
  intros [b Hb]. simpl in Hb.
  unfold AssetManager.deleteBundle, bind, delete_ptr. by rewrite Hb.
Qed.

(** C9. [deleteBundle(b)] on a live bundle erases every entry equal to
    [b] from the registry, leaves the other entries as they are, destroys
    the object, and returns false, whether or not [b] was registered. *)
Theorem deleteBundle_removes_and_destroys this a w :
  live (heap w) (Some a) →
  ∃ this' w',
    AssetManager.deleteBundle this (Some a) w = Done (false, this') w'
    ∧ AssetManager.m_bundleList this'
      = filter (λ p, p ≠ Some a) (AssetManager.m_bundleList this)
    ∧ (Some a ∉ AssetManager.m_bundleList this')
    ∧ (∀ p, p ≠ Some a →
         (p ∈ AssetManager.m_bundleList this'
          ↔ p ∈ AssetManager.m_bundleList this))
    ∧ AssetManager.m_front this' = AssetManager.m_front this
    ∧ AssetManager.m_debug this' = AssetManager.m_debug this
    ∧ AssetManager.activated this' = AssetManager.activated this
    ∧ heap w' = delete a (heap w)
    ∧ ¬ live (heap w') (Some a)
    ∧ trace w' = trace w.
Proof.
  intros Hlive. eexists _, _. split; [by apply deleteBundle_run|].
  simpl. split; [done|]. split; [|split].
  - rewrite list_elem_of_filter. by intros [? _].
  - intros p Hp. rewrite list_elem_of_filter. tauto.
  - repeat split; try done.
    unfold live. simpl. rewrite lookup_delete_eq. by intros [].
Qed.

(** [delete nullptr] does nothing: the registry loses its null entries. *)
Lemma deleteBundle_null this bundle w :
  bundle = None →
  AssetManager.deleteBundle this bundle w
  = Done (false,
          AssetManager.set_bundleList
            (filter (λ p, p ≠ bundle) (AssetManager.m_bundleList this)) this) w.
Proof. by intros ->. Qed.

Lemma unloadAll_loop_filter before rest w :
  Forall (live (heap w)) rest →
  AssetManager.unloadAll_loop before rest w
  = Done (before ++ filter (λ p, is_active (heap w) p) rest) w.
Proof.
  revert before. induction rest as [|i rest IH]; intros before Hl.
  - simpl. unfold ret. by rewrite app_nil_r.
  - apply Forall_cons in Hl as [Hi Hl].
    destruct (live_inv _ _ Hi) as (a & b & -> & Hb).
    simpl. rewrite (bind_done _ _ _ _ _ (deref_live _ _ _ Hb)).
    assert (Hact : is_active (heap w) (Some a) = AssetBundle.active b).
    { unfold is_active. simpl. by rewrite Hb. }
    rewrite filter_cons.
    destruct (AssetBundle.active b); simpl.
    + rewrite decide_True by (by rewrite Hact). rewrite IH by done.
      by rewrite <- app_assoc.
    + rewrite decide_False by (rewrite Hact; exact id). by rewrite IH.
Qed.

(** C6. [unloadAll] returns true and changes nothing on an empty
    registry.  On a registry of live bundles that is not empty it returns
    false; the registry then holds exactly the entries whose bundle was
    active, in their order, and no bundle is destroyed or touched. *)
Theorem unloadAll_keeps_active this w :
  Forall (live (heap w)) (AssetManager.m_bundleList this) →
  AssetManager.unloadAll this w
  = Done (bool_decide (AssetManager.m_bundleList this = []),
          AssetManager.set_bundleList
            (filter (λ p, is_active (heap w) p) (AssetManager.m_bundleList this))
            this) w
  ∧ (AssetManager.m_bundleList this = [] →
     AssetManager.unloadAll this w = Done (true, this) w).
Proof.
  intros Hl. unfold AssetManager.unloadAll.
  destruct this as [l fe dbg act]; simpl in *.
  destruct l as [|i rest]; [done|].
  split; [|done].
  erewrite bind_done; [|by apply unloadAll_loop_filter].
  done.
Qed.

Lemma reloaded_cons fe p l h :
  reloaded fe (p :: l) h = reloaded fe l (update (AssetBundle.reload_fe fe) p h).
Proof. done. Qed.

Lemma reloadBundles_loop_run fe n l w :
  Forall (live (heap w)) l →
  AssetManager.reloadBundles_loop fe n l w
  = Done (Nat.iter (length l) int_incr n)
      (mkWorld (reloaded fe l (heap w)) (trace w ++ calls (CReloadFe fe) l)).
Proof.
  revert n w. induction l as [|p l IH]; intros n w Hl.
  - simpl. unfold ret. rewrite app_nil_r. by destruct w.
  - apply Forall_cons in Hl as [Hp Hl].
    destruct (live_inv _ _ Hp) as (a & b & -> & Hb).
    simpl AssetManager.reloadBundles_loop.
    rewrite (bind_done _ _ _ _ _ (invoke_live _ _ _ _ _ Hb)).
    rewrite IH by (by apply Forall_live_update).
    simpl. rewrite <- app_assoc. f_equal.
    clear. induction (length l) as [|k IHk]; [done|].
    simpl. by rewrite IHk.
Qed.

Lemma int_incr_count k :
  (Z.of_nat k < 2 ^ 31)%Z → Nat.iter k int_incr 0%Z = Z.of_nat k.
Proof.
  induction k as [|k IH]; [done|]. intros Hk.
  simpl Nat.iter. rewrite IH by lia.
  unfold int_incr, int_wrap.
  rewrite Z.mod_small by lia. lia.
Qed.

Lemma calls_count c h l a :
  Forall (live h) l →
  length (filter (λ e, e = EvCall a c) (calls c l))
  = length (filter (λ p, p = Some a) l).
Proof.
  induction 1 as [|p l Hp _ IH]; [done|].
  destruct (live_inv _ _ Hp) as (x & b & -> & _).
  rewrite calls_cons, !filter_cons.
  destruct (decide (x = a)) as [->|Hne].
  - rewrite !decide_True by done. simpl. by rewrite IH.
  - rewrite !decide_False by congruence. exact IH.
Qed.

(** C8, amended. On a registry of live bundles, [reloadBundles] calls
    [reload(m_front)] once per registry entry, in order, so a bundle is
    reloaded as often as the registry lists it.  Its counter ends at the
    registry size, but the count is not what the caller gets: the function
    returns it converted to [bool], true exactly when the registry is not
    empty. *)
Theorem reloadBundles_counts_every_bundle this w :
  Forall (live (heap w)) (AssetManager.m_bundleList this) →
  (Z.of_nat (length (AssetManager.m_bundleList this)) < 2 ^ 31)%Z →
  let fe := AssetManager.m_front this in
  let l := AssetManager.m_bundleList this in
  let w' := mkWorld (reloaded fe l (heap w)) (trace w ++ calls (CReloadFe fe) l) in
  AssetManager.reloadBundles_loop fe 0 l w = Done (Z.of_nat (length l)) w'
  ∧ AssetManager.reloadBundles this w = Done (bool_decide (l ≠ [])) w'
  ∧ int_to_bool (Z.of_nat (length l)) = bool_decide (l ≠ [])
  ∧ length (calls (CReloadFe fe) l) = length l
  ∧ (∀ a, length (filter (λ e, e = EvCall a (CReloadFe fe))
                    (calls (CReloadFe fe) l))
          = length (filter (λ p, p = Some a) l)).
Proof.
  intros Hl Hlen fe l w'.
  assert (Hloop : AssetManager.reloadBundles_loop fe 0 l w
                  = Done (Z.of_nat (length l)) w').
  { unfold fe, l. rewrite reloadBundles_loop_run by done.
    by rewrite int_incr_count. }
  assert (Hbool : int_to_bool (Z.of_nat (length l)) = bool_decide (l ≠ [])).
  { unfold int_to_bool. by destruct l. }
  split; [exact Hloop|]. split; [|split; [|split]].
  - unfold AssetManager.reloadBundles.
    rewrite (bind_done _ _ _ _ _ Hloop). unfold ret. by rewrite Hbool.
  - exact Hbool.
  - by eapply calls_length.
  - intros a. by eapply calls_count.
Qed.

End Registry.

(** ** Activation *)

Section Activation.
Context {S : Type} `{!AssetBundle.Impl S}.

Lemma activate_run
    (this : AssetManager.t) (fe : option Frontend) (debug : option DebugLog)
    (w : World S) :
  Forall (live (heap w)) (AssetManager.m_bundleList this) →
  AssetManager.activate this fe debug w
  = Done (AssetManager.mk (AssetManager.m_bundleList this) fe debug
            (match fe, debug with Some _, Some _ => true | _, _ => false end))
      (mkWorld (reloaded fe (AssetManager.m_bundleList this) (heap w))
         (trace w ++ calls (CReloadFe fe) (AssetManager.m_bundleList this))).
Proof.
  intros Hl. unfold AssetManager.activate, AssetManager.reloadBundles.
  cbn [AssetManager.m_front AssetManager.m_bundleList AssetManager.m_debug].
  erewrite bind_done;
    [|erewrite bind_done; [reflexivity|by apply reloadBundles_loop_run]].
  by destruct fe, debug.
Qed.

(** C4. [activate(fe, dbg)] on a manager whose registry is live rebinds
    both collaborators, reloads every bundle against the new front-end,
    and leaves [activated] true exactly when both [fe] and [dbg] are
    non-null, whatever the flag was before. *)
Theorem activate_sets_flag_iff_bound
    (this : AssetManager.t) (fe : option Frontend) (debug : option DebugLog)
    (w : World S) :
  Forall (live (heap w)) (AssetManager.m_bundleList this) →
  ∃ this',
    AssetManager.activate this fe debug w
    = Done this'
        (mkWorld (reloaded fe (AssetManager.m_bundleList this) (heap w))
           (trace w ++ calls (CReloadFe fe) (AssetManager.m_bundleList this)))
    ∧ AssetManager.m_front this' = fe
    ∧ AssetManager.m_debug this' = debug
    ∧ AssetManager.m_bundleList this' = AssetManager.m_bundleList this
    ∧ (AssetManager.activated this' = true ↔ fe ≠ None ∧ debug ≠ None)
    ∧ (AssetManager.activated this' = true
       ↔ AssetManager.m_front this' ≠ None ∧ AssetManager.m_debug this' ≠ None).
Proof.
  intros Hl. eexists. split; [by apply activate_run|].
  simpl. destruct fe, debug; intuition congruence.
Qed.

End Activation.

(** ** The resolver loops *)

Section Lookups.
Context {S : Type} `{!AssetBundle.Impl S}.
Implicit Types (w : World S) (h : gmap positive (AssetBundle.t S)).
Implicit Types (p : ptr) (a : positive) (b : AssetBundle.t S).
Implicit Types (this : AssetManager.t) (l : list ptr).

Lemma answer_inv {T} h (f : AssetBundle.t S → T) p r :
  answer h f p = Some r → ∃ a b, p = Some a ∧ h !! a = Some b ∧ f b = r.
Proof.
  unfold answer. destruct p as [a|]; simpl; [|done].
  destruct (h !! a) as [b|] eqn:Hb; simpl; [|done].
  intros [= <-]. exists a, b. repeat split; done.
Qed.

Lemma answer_live {T} h (f : AssetBundle.t S → T) p r :
  answer h f p = Some r → live h p.
Proof. intros (a & b & -> & Hb & _)%answer_inv. by exists b. Qed.

Lemma carried_cons {T} h (f : AssetBundle.t S → T) otherwise target p l :
  carried h f otherwise target (p :: l)
  = carried h f otherwise
      (match peek h p with Some b => otherwise (f b) | None => target end) l.
Proof. done. Qed.

(** The loop walks over bundles whose answer does not stop it. *)
Lemma lookup_loop_rejected {T} c (f : AssetBundle.t S → T) stop otherwise
    target pre rest w :
  Forall (λ p, ∃ r, answer (heap w) f p = Some r
                    ∧ ∀ w', stop r w' = Done false w') pre →
  AssetManager.lookup_loop (λ p, query p c f) stop otherwise target
    (pre ++ rest) w
  = AssetManager.lookup_loop (λ p, query p c f) stop otherwise
      (carried (heap w) f otherwise target pre) rest
      (mkWorld (heap w) (trace w ++ calls c pre)).
Proof.
  revert target w. induction pre as [|p pre IH]; intros target w Hpre.
  - simpl. rewrite app_nil_r. by destruct w.
  - apply Forall_cons in Hpre as [(r & Hr & Hstop) Hpre].
    destruct (answer_inv _ _ _ _ Hr) as (a & b & -> & Hb & <-).
    simpl AssetManager.lookup_loop.
    rewrite (bind_done _ _ _ _ _ (query_live _ _ c f _ Hb)).
    rewrite (bind_done _ _ _ _ _ (Hstop _)).
    rewrite IH by done.
    simpl. rewrite Hb. by rewrite <- app_assoc.
Qed.

(** The loop ends at the first bundle whose answer stops it; the rest
    of the list is not looked at. *)
Lemma lookup_loop_found {T} c (f : AssetBundle.t S → T) stop otherwise
    target a b rest w :
  heap w !! a = Some b →
  (∀ w', stop (f b) w' = Done true w') →
  AssetManager.lookup_loop (λ p, query p c f) stop otherwise target
    (Some a :: rest) w
  = Done (f b) (mkWorld (heap w) (trace w ++ [EvCall a c])).
Proof.
  intros Hb Hstop. simpl.
  rewrite (bind_done _ _ _ _ _ (query_live _ _ c f _ Hb)).
  by rewrite (bind_done _ _ _ _ _ (Hstop _)).
Qed.

Lemma carried_id_last {T} h (f : AssetBundle.t S → T) target l :
  Forall (live h) l →
  carried h f id target l = last_answer h f target l.
Proof.
  revert target. induction l as [|p l IH]; intros target Hl; [done|].
  apply Forall_cons in Hl as [Hp Hl].
  destruct (live_inv _ _ Hp) as (a & b & -> & Hb).
  rewrite carried_cons. simpl peek. rewrite Hb.
  rewrite IH by done. unfold last_answer.
  rewrite last_cons. destruct (last l) as [q|] eqn:Hq; simpl.
  - apply last_Some_elem_of in Hq.
    destruct (proj1 (Forall_forall _ _) Hl q Hq) as [bq Hbq].
    unfold answer. by rewrite Hbq.
  - unfold answer. simpl. by rewrite Hb.
Qed.

Lemma carried_const {T} h (f : AssetBundle.t S → T) (v : T) l :
  carried h f (λ _, v) v l = v.
Proof.
  induction l as [|p l IH]; [done|].
  rewrite carried_cons. by destruct (peek h p).
Qed.

Lemma loaded_ok_null_or_error {X} `{AssetHandle X} (target : option X) :
  AssetManager.null_or_error target = negb (AssetManager.loaded_ok target).
Proof. destruct target as [x|]; simpl; [|done]. by rewrite negb_involutive. Qed.

Lemma fails_rejected {X} `{AssetHandle X} h (f : AssetBundle.t S → option X) l :
  Forall (fails h f) l →
  Forall (λ p, ∃ r, answer h f p = Some r
                    ∧ ∀ w' : World S,
                        ret (AssetManager.loaded_ok r) w' = Done false w') l.
Proof.
  intros Hl. eapply Forall_impl; [exact Hl|].
  intros p (r & Hr & Hok). exists r. split; [done|].
  intros w'. unfold ret. by rewrite Hok.
Qed.

Lemma errors_rejected {X} `{AssetHandle X} h (f : AssetBundle.t S → option X) l :
  Forall (errors h f) l →
  Forall (λ p, ∃ r, answer h f p = Some r
                    ∧ ∀ w' : World S,
                        (let* e := handle_error r in ret (negb e)) w'
                        = Done false w') l.
Proof.
  intros Hl. eapply Forall_impl; [exact Hl|].
  intros p (s & Hs & Herr). exists (Some s). split; [done|].
  intros w'. unfold bind, handle_error, ret. by rewrite Herr.
Qed.

Lemma no_folder_rejected h (f : AssetBundle.t S → string) l :
  Forall (no_folder h f) l →
  Forall (λ p, ∃ r, answer h f p = Some r
                    ∧ ∀ w' : World S,
                        ret (negb (empty_string r)) w' = Done false w') l.
Proof.
  intros Hl. eapply Forall_impl; [exact Hl|].
  intros p (r & Hr & Hempty). exists r. split; [done|].
  intros w'. unfold ret. by rewrite Hempty.
Qed.

Lemma fails_live {X} `{AssetHandle X} h (f : AssetBundle.t S → option X) l :
  Forall (fails h f) l → Forall (live h) l.
Proof.
  intros Hl. eapply Forall_impl; [exact Hl|].
  intros p (r & Hr & _). by eapply answer_live.
Qed.

Lemma no_folder_live h (f : AssetBundle.t S → string) l :
  Forall (no_folder h f) l → Forall (live h) l.
Proof.
  intros Hl. eapply Forall_impl; [exact Hl|].
  intros p (r & Hr & _). by eapply answer_live.
Qed.

(** *** Image loop *)

Lemma image_loop_first_clean c f pre a b post w :
  Forall (fails (heap w) f) pre →
  heap w !! a = Some b →
  AssetManager.loaded_ok (f b) = true →
  AssetManager.image_loop (λ p, query p c f) (pre ++ Some a :: post) w
  = Done (f b) (mkWorld (heap w) (trace w ++ calls c (pre ++ [Some a]))).
Proof.
  intros Hpre Hb Hok. unfold AssetManager.image_loop.
  rewrite lookup_loop_rejected by (by apply fails_rejected).
  erewrite lookup_loop_found; [|exact Hb|intros w'; unfold ret; by rewrite Hok].
  simpl. by rewrite calls_app, app_assoc.
Qed.

Lemma image_loop_all_fail c f l w :
  Forall (fails (heap w) f) l →
  AssetManager.image_loop (λ p, query p c f) l w
  = Done (last_answer (heap w) f None l)
      (mkWorld (heap w) (trace w ++ calls c l)).
Proof.
  intros Hl. unfold AssetManager.image_loop.
  rewrite <- (app_nil_r l) at 1.
  rewrite lookup_loop_rejected by (by apply fails_rejected).
  simpl. unfold ret.
  by rewrite carried_id_last by exact (fails_live _ _ _ Hl).
Qed.

Lemma last_answer_fails {X} `{AssetHandle X} h
    (f : AssetBundle.t S → option X) l :
  Forall (fails h f) l →
  AssetManager.null_or_error (last_answer h f None l) = true.
Proof.
  intros Hl. unfold last_answer.
  destruct (last l) as [q|] eqn:Hq; simpl; [|done].
  apply last_Some_elem_of in Hq.
  destruct (proj1 (Forall_forall _ _) Hl q Hq) as (r & Hr & Hok).
  rewrite Hr. simpl. by rewrite loaded_ok_null_or_error, Hok.
Qed.

(** *** Sound loop *)

Lemma sound_loop_first_clean c f pre a b post w :
  Forall (errors (heap w) f) pre →
  heap w !! a = Some b →
  AssetManager.loaded_ok (f b) = true →
  AssetManager.sound_loop (λ p, query p c f) (pre ++ Some a :: post) w
  = Done (f b) (mkWorld (heap w) (trace w ++ calls c (pre ++ [Some a]))).
Proof.
  intros Hpre Hb Hok. unfold AssetManager.sound_loop.
  rewrite lookup_loop_rejected by (by apply errors_rejected).
  erewrite lookup_loop_found; [|exact Hb|].
  - simpl. by rewrite calls_app, app_assoc.
  - intros w'. destruct (f b) as [s|]; [|done]. simpl in Hok.
    unfold bind, handle_error, ret. by rewrite Hok.
Qed.

Lemma sound_loop_all_error c f l w :
  Forall (errors (heap w) f) l →
  AssetManager.sound_loop (λ p, query p c f) l w
  = Done None (mkWorld (heap w) (trace w ++ calls c l)).
Proof.
  intros Hl. unfold AssetManager.sound_loop.
  rewrite <- (app_nil_r l) at 1.
  rewrite lookup_loop_rejected by (by apply errors_rejected).
  simpl. unfold ret. by rewrite carried_const.
Qed.

(** *** Folder loop *)

Lemma folder_loop_first_found c f pre a b post w :
  Forall (no_folder (heap w) f) pre →
  heap w !! a = Some b →
  empty_string (f b) = false →
  AssetManager.folder_loop (λ p, query p c f) (pre ++ Some a :: post) w
  = Done (f b) (mkWorld (heap w) (trace w ++ calls c (pre ++ [Some a]))).
Proof.
  intros Hpre Hb Hok. unfold AssetManager.folder_loop.
  rewrite lookup_loop_rejected by (by apply no_folder_rejected).
  erewrite lookup_loop_found; [|exact Hb|intros w'; unfold ret; by rewrite Hok].
  simpl. by rewrite calls_app, app_assoc.
Qed.

Lemma empty_string_inv s : empty_string s = true → s = "".
Proof. by destruct s. Qed.

Lemma folder_loop_none c f l w :
  Forall (no_folder (heap w) f) l →
  AssetManager.folder_loop (λ p, query p c f) l w
  = Done "" (mkWorld (heap w) (trace w ++ calls c l)).
Proof.
  intros Hl. unfold AssetManager.folder_loop.
  rewrite <- (app_nil_r l) at 1.
  rewrite lookup_loop_rejected by (by apply no_folder_rejected).
  simpl. unfold ret.
  rewrite carried_id_last by exact (no_folder_live _ _ _ Hl).
  f_equal. unfold last_answer.
  destruct (last l) as [q|] eqn:Hq; simpl; [|done].
  apply last_Some_elem_of in Hq.
  destruct (proj1 (Forall_forall _ _) Hl q Hq) as (r & Hr & Hempty).
  rewrite Hr. simpl. by apply empty_string_inv.
Qed.

End Lookups.

(** ** The resolver *)

Section Resolver.
Context {S : Type} `{!AssetBundle.Impl S}.
Variable toString : Z → string.
Implicit Types (w : World S) (h : gmap positive (AssetBundle.t S)).
Implicit Types (p : ptr) (a : positive) (b : AssetBundle.t S).
Implicit Types (this : AssetManager.t) (l : list ptr).

(** The tail shared by the six lookups: the failure test, the log entry,
    the return. *)
Lemma finish_lookup {T} (loop : M S T) (flag : T → bool) dbg msg w t w' :
  loop w = Done t w' →
  (let* target := loop in
   (if flag target then log dbg msg Error else ret tt) >> ret target) w
  = if flag t
    then match dbg with
         | Some d => Done t (mkWorld (heap w') (trace w' ++ [EvLog d msg Error]))
         | None => Crash NullDebugLog
         end
    else Done t w'.
Proof.
  intros Hloop. rewrite (bind_done _ _ _ _ _ Hloop).
  destruct (flag t); [|done]. by destruct dbg.
Qed.

Lemma finish_lookup_crash {T} (loop : M S T) (flag : T → bool) dbg msg w e :
  loop w = Crash e →
  (let* target := loop in
   (if flag target then log dbg msg Error else ret tt) >> ret target) w
  = Crash e.
Proof. apply bind_crash. Qed.

(** *** The first clean answer wins *)

Lemma loadImage_first_clean this token custom pre a b post w :
  AssetManager.m_bundleList this = pre ++ Some a :: post →
  Forall (fails (heap w) (AssetBundle.loadImage token custom)) pre →
  heap w !! a = Some b →
  AssetManager.loaded_ok (AssetBundle.loadImage token custom b) = true →
  AssetManager.loadImage toString this token custom w
  = Done (AssetBundle.loadImage token custom b)
      (mkWorld (heap w)
         (trace w ++ calls (CLoadImage token custom) (pre ++ [Some a]))).
Proof.
  intros Hl Hpre Hb Hok. unfold AssetManager.loadImage.
  erewrite finish_lookup;
    [|rewrite Hl; by apply image_loop_first_clean].
  by rewrite loaded_ok_null_or_error, Hok.
Qed.

Lemma loadImage_character_first_clean this token character pre a b post w :
  AssetManager.m_bundleList this = pre ++ Some a :: post →
  Forall (fails (heap w) (AssetBundle.loadCharImage token character)) pre →
  heap w !! a = Some b →
  AssetManager.loaded_ok (AssetBundle.loadCharImage token character b) = true →
  AssetManager.loadImage_character toString this token character w
  = Done (AssetBundle.loadCharImage token character b)
      (mkWorld (heap w)
         (trace w ++ calls (CLoadCharImage token character) (pre ++ [Some a]))).
Proof.
  intros Hl Hpre Hb Hok. unfold AssetManager.loadImage_character.
  erewrite finish_lookup;
    [|rewrite Hl; by apply image_loop_first_clean].
  by rewrite loaded_ok_null_or_error, Hok.
Qed.

Lemma loadSound_first_clean this token custom pre a b post w :
  AssetManager.m_bundleList this = pre ++ Some a :: post →
  Forall (errors (heap w) (AssetBundle.loadSound token custom)) pre →
  heap w !! a = Some b →
  AssetManager.loaded_ok (AssetBundle.loadSound token custom b) = true →
  AssetManager.loadSound toString this token custom w
  = Done (AssetBundle.loadSound token custom b)
      (mkWorld (heap w)
         (trace w ++ calls (CLoadSound token custom) (pre ++ [Some a]))).
Proof.
  intros Hl Hpre Hb Hok. unfold AssetManager.loadSound.
  erewrite finish_lookup;
    [|rewrite Hl; by apply sound_loop_first_clean].
  by rewrite loaded_ok_null_or_error, Hok.
Qed.

Lemma loadSound_character_first_clean this token character pre a b post w :
  AssetManager.m_bundleList this = pre ++ Some a :: post →
  Forall (errors (heap w) (AssetBundle.loadCharSound token character)) pre →
  heap w !! a = Some b →
  AssetManager.loaded_ok (AssetBundle.loadCharSound token character b) = true →
  AssetManager.loadSound_character toString this token character w
  = Done (AssetBundle.loadCharSound token character b)
      (mkWorld (heap w)
         (trace w ++ calls (CLoadCharSound token character) (pre ++ [Some a]))).
Proof.
  intros Hl Hpre Hb Hok. unfold AssetManager.loadSound_character.
  erewrite finish_lookup;
    [|rewrite Hl; by apply sound_loop_first_clean].
  by rewrite loaded_ok_null_or_error, Hok.
Qed.

Lemma getAnimationFolder_character_first_found this character pre a b post w :
  AssetManager.m_bundleList this = pre ++ Some a :: post →
  Forall (no_folder (heap w) (AssetBundle.getCharAnimationsFolder character)) pre →
  heap w !! a = Some b →
  empty_string (AssetBundle.getCharAnimationsFolder character b) = false →
  AssetManager.getAnimationFolder_character this character w
  = Done (AssetBundle.getCharAnimationsFolder character b)
      (mkWorld (heap w)
         (trace w ++ calls (CGetCharAnimationsFolder character) (pre ++ [Some a]))).
Proof.
  intros Hl Hpre Hb Hok. unfold AssetManager.getAnimationFolder_character.
  erewrite finish_lookup;
    [|rewrite Hl; by apply folder_loop_first_found].
  by rewrite Hok.
Qed.

Lemma getAnimationFolder_first_found this token script_name pre a b post w :
  AssetManager.m_bundleList this = pre ++ Some a :: post →
  Forall (no_folder (heap w) (AssetBundle.getAnimationFolder token script_name)) pre →
  heap w !! a = Some b →
  empty_string (AssetBundle.getAnimationFolder token script_name b) = false →
  AssetManager.getAnimationFolder toString this token script_name w
  = Done (AssetBundle.getAnimationFolder token script_name b)
      (mkWorld (heap w)
         (trace w ++ calls (CGetAnimationFolder token script_name) (pre ++ [Some a]))).
Proof.
  intros Hl Hpre Hb Hok. unfold AssetManager.getAnimationFolder.
  erewrite finish_lookup;
    [|rewrite Hl; by apply folder_loop_first_found].
  by rewrite Hok.
Qed.

(** *** No bundle supplies the asset *)

(** C2, amended.  On a manager whose debug log is bound, a lookup that no
    bundle answers cleanly makes exactly one [Error] entry in the log,
    after every bundle was asked once, and returns normally.  An image
    lookup returns the candidate of the last bundle (null for an empty
    registry), which is null or reports an error; a sound lookup whose
    bundles all answered with errored handles returns null; a folder
    lookup returns the empty string. *)
Theorem lookup_exhausted_logs_once this d w :
  AssetManager.m_debug this = Some d →
  let l := AssetManager.m_bundleList this in
  let h := heap w in
  (∀ token custom,
     Forall (fails h (AssetBundle.loadImage token custom)) l →
     AssetManager.loadImage toString this token custom w
     = Done (last_answer h (AssetBundle.loadImage token custom) None l)
         (mkWorld h
            (trace w ++ calls (CLoadImage token custom) l
               ++ [EvLog d ("Error loading image token " +:+ toString token
                              +:+ " custom " +:+ custom) Error]))
     ∧ AssetManager.null_or_error
         (last_answer h (AssetBundle.loadImage token custom) None l) = true)
  ∧ (∀ token character,
       Forall (fails h (AssetBundle.loadCharImage token character)) l →
       AssetManager.loadImage_character toString this token character w
       = Done (last_answer h (AssetBundle.loadCharImage token character) None l)
           (mkWorld h
              (trace w ++ calls (CLoadCharImage token character) l
                 ++ [EvLog d ("Error loading image token " +:+ toString token
                                +:+ " character " +:+ to_string character)
                       Error]))
       ∧ AssetManager.null_or_error
           (last_answer h (AssetBundle.loadCharImage token character) None l)
         = true)
  ∧ (∀ token custom,
       Forall (errors h (AssetBundle.loadSound token custom)) l →
       AssetManager.loadSound toString this token custom w
       = Done None
           (mkWorld h
              (trace w ++ calls (CLoadSound token custom) l
                 ++ [EvLog d ("Error loading sound token " +:+ toString token
                                +:+ " custom " +:+ custom) Error])))
  ∧ (∀ token character,
       Forall (errors h (AssetBundle.loadCharSound token character)) l →
       AssetManager.loadSound_character toString this token character w
       = Done None
           (mkWorld h
              (trace w ++ calls (CLoadCharSound token character) l
                 ++ [EvLog d ("Error loading sound token " +:+ toString token
                                +:+ " character " +:+ to_string character)
                       Error])))
  ∧ (∀ character,
       Forall (no_folder h (AssetBundle.getCharAnimationsFolder character)) l →
       AssetManager.getAnimationFolder_character this character w
       = Done ""
           (mkWorld h
              (trace w ++ calls (CGetCharAnimationsFolder character) l
                 ++ [EvLog d ("Error loading animation script character "
                                +:+ to_string character) Error])))
  ∧ (∀ token script_name,
       Forall (no_folder h (AssetBundle.getAnimationFolder token script_name)) l →
       AssetManager.getAnimationFolder toString this token script_name w
       = Done ""
           (mkWorld h
              (trace w ++ calls (CGetAnimationFolder token script_name) l
                 ++ [EvLog d ("Error loading animation script token "
                                +:+ toString token) Error]))).
Proof.
  intros Hd l h.
  split; [|split; [|split; [|split; [|split]]]].
  - intros token custom Hl. split; [|by apply last_answer_fails].
    unfold AssetManager.loadImage.
    erewrite finish_lookup; [|by apply image_loop_all_fail].
    rewrite last_answer_fails by done. rewrite Hd. simpl.
    by rewrite <- app_assoc.
  - intros token character Hl. split; [|by apply last_answer_fails].
    unfold AssetManager.loadImage_character.
    erewrite finish_lookup; [|by apply image_loop_all_fail].
    rewrite last_answer_fails by done. rewrite Hd. simpl.
    by rewrite <- app_assoc.
  - intros token custom Hl. unfold AssetManager.loadSound.
    erewrite finish_lookup; [|by apply sound_loop_all_error].
    rewrite Hd. simpl. by rewrite <- app_assoc.
  - intros token character Hl. unfold AssetManager.loadSound_character.
    erewrite finish_lookup; [|by apply sound_loop_all_error].
    rewrite Hd. simpl. by rewrite <- app_assoc.
  - intros character Hl. unfold AssetManager.getAnimationFolder_character.
    erewrite finish_lookup; [|by apply folder_loop_none].
    rewrite Hd. simpl. by rewrite <- app_assoc.
  - intros token script_name Hl. unfold AssetManager.getAnimationFolder.
    erewrite finish_lookup; [|by apply folder_loop_none].
    rewrite Hd. simpl. by rewrite <- app_assoc.
Qed.

(** *** Null handles *)

Lemma sound_loop_null_crash c f l w :
  AssetManager.sound_loop (λ p, query p c f) l w = Crash NullHandle
  ↔ consulted_null (heap w) f l.
Proof.
  split.
  - revert w. induction l as [|p l IH]; intros w; [done|].
    unfold AssetManager.sound_loop. simpl AssetManager.lookup_loop.
    destruct (peek (heap w) p) as [b|] eqn:Hp.
    + destruct p as [a|]; [simpl in Hp|done].
      rewrite (bind_done _ _ _ _ _ (query_live _ _ c f _ Hp)).
      destruct (f b) as [s|] eqn:Hf.
      * unfold bind at 1. simpl.
        destruct (error s) eqn:Hs; simpl; [|done].
        intros (pre & q & post & -> & Hpre & Hq)%IH. simpl in Hpre, Hq.
        exists (Some a :: pre), q, post. split; [done|]. split; [|done].
        apply Forall_cons. split; [|done].
        exists s. split; [|done]. unfold answer. simpl. rewrite Hp. simpl. by rewrite Hf.
      * intros _. exists [], (Some a), l. split; [done|]. split; [done|].
        unfold answer. simpl. rewrite Hp. simpl. by rewrite Hf.
    + rewrite (bind_crash _ _ _ InvalidBundle); [done|].
      apply query_dead. unfold live. rewrite Hp. by intros [].
  - intros (pre & q & post & -> & Hpre & Hq).
    destruct (answer_inv _ _ _ _ Hq) as (a & b & -> & Hb & Hf).
    unfold AssetManager.sound_loop.
    rewrite lookup_loop_rejected by (by apply errors_rejected).
    simpl AssetManager.lookup_loop.
    erewrite bind_done; [|by apply query_live].
    by rewrite Hf.
Qed.

Lemma image_lookup_no_null_crash c f target l w :
  AssetManager.lookup_loop (λ p, query p c f)
    (λ target : option FeImage, ret (AssetManager.loaded_ok target)) id
    target l w
  ≠ Crash NullHandle.
Proof.
  revert target w. induction l as [|p l IH]; intros target w; [done|].
  simpl AssetManager.lookup_loop.
  destruct (peek (heap w) p) as [b|] eqn:Hp.
  - destruct p as [a|]; [simpl in Hp|done].
    rewrite (bind_done _ _ _ _ _ (query_live _ _ c f _ Hp)).
    unfold bind at 1, ret at 1.
    destruct (AssetManager.loaded_ok (f b)); [done|]. apply IH.
  - rewrite (bind_crash _ _ _ InvalidBundle); [done|].
    apply query_dead. unfold live. rewrite Hp. by intros [].
Qed.

Lemma image_loop_no_null_crash c f l w :
  AssetManager.image_loop (λ p, query p c f) l w ≠ Crash NullHandle.
Proof. apply image_lookup_no_null_crash. Qed.

Lemma lookup_tail_null_crash {T} (loop : M S T) (flag : T → bool) dbg msg w :
  (let* target := loop in
   (if flag target then log dbg msg Error else ret tt) >> ret target) w
  = Crash NullHandle
  ↔ loop w = Crash NullHandle.
Proof.
  destruct (loop w) as [t w'|e] eqn:Hloop.
  - rewrite (finish_lookup _ _ _ _ _ _ _ Hloop).
    destruct (flag t); [destruct dbg|]; done.
  - by rewrite (finish_lookup_crash _ _ _ _ _ _ Hloop).
Qed.

(** Apart from a null handle, a sound lookup on a live registry can only
    be stopped by an unbound debug log. *)
Lemma sound_loop_live c f l w :
  Forall (live (heap w)) l →
  (∃ target tr,
     AssetManager.sound_loop (λ p, query p c f) l w
     = Done target (mkWorld (heap w) tr))
  ∨ AssetManager.sound_loop (λ p, query p c f) l w = Crash NullHandle.
Proof.
  revert w. induction l as [|p l IH]; intros w Hl.
  - left. exists None, (trace w). by destruct w.
  - apply Forall_cons in Hl as [Hp Hl].
    destruct (live_inv _ _ Hp) as (a & b & -> & Hb).
    unfold AssetManager.sound_loop. simpl AssetManager.lookup_loop.
    rewrite (bind_done _ _ _ _ _ (query_live _ _ c f _ Hb)).
    destruct (f b) as [s|]; [|by right].
    unfold bind at 1. simpl. destruct (error s); simpl.
    + apply (IH (mkWorld (heap w) (trace w ++ [EvCall a c]))). done.
    + left. by eexists _, _.
Qed.

(** C10. Both [loadSound] overloads call [error()] on what a bundle
    returned without a null check: the call runs into a null handle
    exactly when a bundle it consults answers null.  With a live registry
    and a bound debug log this is the only way for them not to return.
    [loadImage] tests for null first and never runs into a null handle. *)
Theorem loadSound_null_handle_unchecked this w :
  let l := AssetManager.m_bundleList this in
  (∀ token custom,
     AssetManager.loadSound toString this token custom w = Crash NullHandle
     ↔ consulted_null (heap w) (AssetBundle.loadSound token custom) l)
  ∧ (∀ token character,
       AssetManager.loadSound_character toString this token character w
       = Crash NullHandle
       ↔ consulted_null (heap w) (AssetBundle.loadCharSound token character) l)
  ∧ (Forall (live (heap w)) l → is_Some (AssetManager.m_debug this) →
     (∀ token custom,
        (∃ target w',
           AssetManager.loadSound toString this token custom w = Done target w')
        ↔ ¬ consulted_null (heap w) (AssetBundle.loadSound token custom) l)
     ∧ (∀ token character,
          (∃ target w',
             AssetManager.loadSound_character toString this token character w
             = Done target w')
          ↔ ¬ consulted_null (heap w)
                (AssetBundle.loadCharSound token character) l))
  ∧ (∀ token custom,
       AssetManager.loadImage toString this token custom w ≠ Crash NullHandle)
  ∧ (∀ token character,
       AssetManager.loadImage_character toString this token character w
       ≠ Crash NullHandle).
Proof.
  intros l.
  assert (Hcustom : ∀ token custom,
    AssetManager.loadSound toString this token custom w = Crash NullHandle
    ↔ consulted_null (heap w) (AssetBundle.loadSound token custom) l).
  { intros. unfold AssetManager.loadSound.
    rewrite lookup_tail_null_crash. apply sound_loop_null_crash. }
  assert (Hchar : ∀ token character,
    AssetManager.loadSound_character toString this token character w
    = Crash NullHandle
    ↔ consulted_null (heap w) (AssetBundle.loadCharSound token character) l).
  { intros. unfold AssetManager.loadSound_character.
    rewrite lookup_tail_null_crash. apply sound_loop_null_crash. }
  split; [exact Hcustom|]. split; [exact Hchar|]. split; [|split].
  - intros Hl [d Hd]. split.
    + intros token custom. rewrite <- Hcustom.
      unfold AssetManager.loadSound.
      destruct (sound_loop_live (CLoadSound token custom)
                  (AssetBundle.loadSound token custom) _ _ Hl)
        as [(target & tr & Hloop)|Hloop].
      * rewrite (finish_lookup _ _ _ _ _ _ _ Hloop), Hd.
        split; [by destruct (AssetManager.null_or_error target)|].
        intros _. destruct (AssetManager.null_or_error target); by eexists _, _.
      * rewrite (finish_lookup_crash _ _ _ _ _ _ Hloop).
        split; [by intros (? & ? & ?)|done].
    + intros token character. rewrite <- Hchar.
      unfold AssetManager.loadSound_character.
      destruct (sound_loop_live (CLoadCharSound token character)
                  (AssetBundle.loadCharSound token character) _ _ Hl)
        as [(target & tr & Hloop)|Hloop].
      * rewrite (finish_lookup _ _ _ _ _ _ _ Hloop), Hd.
        split; [by destruct (AssetManager.null_or_error target)|].
        intros _. destruct (AssetManager.null_or_error target); by eexists _, _.
      * rewrite (finish_lookup_crash _ _ _ _ _ _ Hloop).
        split; [by intros (? & ? & ?)|done].
  - intros token custom. unfold AssetManager.loadImage.
    rewrite lookup_tail_null_crash. apply image_loop_no_null_crash.
  - intros token character. unfold AssetManager.loadImage_character.
    rewrite lookup_tail_null_crash. apply image_loop_no_null_crash.
Qed.

End Resolver.

(** ** Enumeration queries *)

Section Enumeration.
Context {S : Type} `{!AssetBundle.Impl S}.
Implicit Types (w : World S) (h : gmap positive (AssetBundle.t S)).
Implicit Types (this : AssetManager.t) (l : list ptr).

Lemma insert_all_union (values result : gset string) :
  AssetManager.insert_all values result = values ∪ result.
Proof.
  unfold AssetManager.insert_all.
  rewrite <- (list_to_set_elements_L values) at 2.
  generalize (elements values). intros vs. revert result.
  induction vs as [|v vs IH]; intros result; simpl.
  - by rewrite (left_id_L ∅ (∪)).
  - rewrite IH. rewrite (assoc_L (∪)).
    by rewrite (comm_L (∪) (list_to_set vs) {[v]}).
Qed.

Lemma list_loop_run c (f : AssetBundle.t S → gset string) result l w :
  Forall (live (heap w)) l →
  ∃ result',
    AssetManager.list_loop (λ p, query p c f) result l w
    = Done result' (mkWorld (heap w) (trace w ++ calls c l))
    ∧ ∀ x, x ∈ result' ↔ x ∈ result ∨ listed (heap w) f l x.
Proof.
  revert result w. induction l as [|p l IH]; intros result w Hl.
  - exists result. split.
    + simpl. unfold ret. rewrite app_nil_r. by destruct w.
    + intros x. split; [by left|]. intros [?|(p & b & Hp & _)]; [done|].
      by apply elem_of_nil in Hp.
  - apply Forall_cons in Hl as [Hp Hl].
    destruct (live_inv _ _ Hp) as (a & b & -> & Hb).
    simpl AssetManager.list_loop.
    rewrite (bind_done _ _ _ _ _ (query_live _ _ c f _ Hb)).
    destruct (IH (AssetManager.insert_all (f b) result)
                (mkWorld (heap w) (trace w ++ [EvCall a c])) Hl)
      as (result' & Hrun & Hmem).
    exists result'. split.
    + rewrite Hrun. simpl. by rewrite <- app_assoc.
    + intros x. rewrite Hmem, insert_all_union, elem_of_union. simpl.
      unfold listed. split.
      * intros [[Hx|Hx]|(q & bq & Hq & Hbq & Hx)].
        -- right. exists (Some a), b. split; [apply list_elem_of_here|done].
        -- by left.
        -- right. exists q, bq. split; [by apply list_elem_of_further|done].
      * intros [Hx|(q & bq & Hq & Hbq & Hx)]; [by left; right|].
        apply elem_of_cons in Hq as [->|Hq].
        -- simpl in Hbq. rewrite Hb in Hbq. injection Hbq as <-.
           by left; left.
        -- right. by exists q, bq.
Qed.

Lemma listed_perm h (f : AssetBundle.t S → gset string) l l' x :
  l' ≡ₚ l → listed h f l' x → listed h f l x.
Proof.
  intros Hperm (p & b & Hp & Hb & Hx). exists p, b.
  split; [by rewrite <- Hperm|done].
Qed.

Lemma list_loop_enumerates c (f : AssetBundle.t S → gset string) this w :
  Forall (live (heap w)) (AssetManager.m_bundleList this) →
  enumerates
    (λ this, AssetManager.list_loop (λ p, query p c f) ∅
               (AssetManager.m_bundleList this)) c f this w.
Proof.
  intros Hl. destruct (list_loop_run c f ∅ _ _ Hl) as (result & Hrun & Hmem).
  exists result. split; [done|]. split.
  - intros x. rewrite Hmem. split; [|by right].
    intros [Hx|Hx]; [|done]. by apply elem_of_empty in Hx.
  - intros this' Hperm.
    assert (Hl' : Forall (live (heap w)) (AssetManager.m_bundleList this')).
    { by rewrite Hperm. }
    destruct (list_loop_run c f ∅ _ _ Hl') as (result' & Hrun' & Hmem').
    exists (mkWorld (heap w)
              (trace w ++ calls c (AssetManager.m_bundleList this'))).
    rewrite Hrun'. f_equal. apply set_eq. intros x.
    rewrite Hmem, Hmem'. split.
    + intros [?|?]; [by left|]. right. by eapply listed_perm.
    + intros [?|?]; [by left|]. right. by eapply listed_perm.
Qed.

(** C7. On a registry of live bundles each enumeration query returns
    the union of the bundles' listings: a name is in the result exactly
    when some bundle lists it, and the order of the registry does not
    show in the result. *)
Theorem enumeration_is_union this w :
  Forall (live (heap w)) (AssetManager.m_bundleList this) →
  enumerates AssetManager.listPuyoSkins CListPuyoSkins
    AssetBundle.listPuyoSkins this w
  ∧ enumerates AssetManager.listBackgrounds CListBackgrounds
      AssetBundle.listBackgrounds this w
  ∧ enumerates AssetManager.listCharacterSkins CListCharacterSkins
      AssetBundle.listCharacterSkins this w
  ∧ enumerates AssetManager.listSfx CListSfx AssetBundle.listSfx this w.
Proof.
  intros Hl. repeat split; by apply list_loop_enumerates.
Qed.

End Enumeration.

(** ** Cloning *)

Section Clone.
Context {S : Type} `{!AssetBundle.Impl S}.
Implicit Types (w : World S) (h : gmap positive (AssetBundle.t S)).
Implicit Types (p : ptr) (a : positive) (b : AssetBundle.t S).
Implicit Types (this current : AssetManager.t) (l : list ptr).
Implicit Types (copies : list (positive * AssetBundle.t S)).

Lemma alloc_run b w :
  alloc b w
  = Done (Some (fresh (dom (heap w))))
      (mkWorld (<[fresh (dom (heap w)) := b]> (heap w)) (trace w)).
Proof. done. Qed.

Lemma fresh_unused h : h !! fresh (dom h) = None.
Proof. apply not_elem_of_dom. apply is_fresh. Qed.

Lemma live_insert h a b p : live h p → live (<[a := b]> h) p.
Proof.
  intros (x & bx & -> & Hx)%live_inv. unfold live. simpl.
  destruct (decide (a = x)) as [->|Hne].
  - rewrite lookup_insert_eq. by eexists.
  - rewrite lookup_insert_ne by done. by eexists.
Qed.

Lemma Forall2_impl_l {A B} (Q : A → Prop) (P P' : A → B → Prop) xs ys :
  Forall Q xs → Forall2 P xs ys →
  (∀ x y, Q x → P x y → P' x y) → Forall2 P' xs ys.
Proof.
  intros HQ HP Himpl. induction HP as [|x y xs ys Hxy _ IH].
  - constructor.
  - apply Forall_cons in HQ as [Hx HQ]. constructor; auto.
Qed.

Lemma set_bundleList_twice l l' this :
  AssetManager.set_bundleList l (AssetManager.set_bundleList l' this)
  = AssetManager.set_bundleList l this.
Proof. done. Qed.

Lemma reloaded_lookup fe l h a :
  NoDup l →
  reloaded fe l h !! a
  = if decide (Some a ∈ l) then AssetBundle.reload_fe fe <$> h !! a else h !! a.
Proof.
  revert h. induction l as [|p l IH]; intros h Hnd.
  - unfold reloaded. simpl foldl.
    destruct (decide (Some a ∈ [])) as [Hin|]; [|done].
    by apply elem_of_nil in Hin.
  - apply NoDup_cons in Hnd as [Hp Hnd]. rewrite reloaded_cons, IH by done.
    destruct (decide (p = Some a)) as [->|Hne].
    + rewrite decide_False by done.
      rewrite decide_True by apply list_elem_of_here.
      unfold update. destruct (h !! a) as [b|] eqn:Hb.
      * by rewrite lookup_insert_eq.
      * by rewrite Hb.
    + rewrite update_lookup_ne by done.
      destruct (decide (Some a ∈ l)) as [Hin|Hnin].
      * by rewrite decide_True by (by apply list_elem_of_further).
      * rewrite decide_False; [done|].
        intros [?|?]%elem_of_cons; [congruence|done].
Qed.

Lemma update_live_reloaded fe l h p : live h p → live (reloaded fe l h) p.
Proof.
  revert h. induction l as [|q l IH]; intros h Hp; [done|].
  rewrite reloaded_cons. apply IH. by apply update_live.
Qed.

(** The registry built from the copies: those valid when inserted. *)
Lemma clone_loop_run default_priority current l w :
  Forall (live (heap w)) l →
  ∃ copies w',
    AssetManager.clone_loop default_priority current l w
    = Done (AssetManager.set_bundleList
              (AssetManager.m_bundleList current
               ++ (Some <$> (filter (λ ac, AssetBundle.valid ac.2) copies).*1))
              current) w'
    ∧ Forall2 (λ p ac, ∃ b, peek (heap w) p = Some b
                            ∧ ac.2 = inserted (AssetManager.m_front current)
                                       (AssetManager.m_debug current)
                                       (AssetBundle.clone b)) l copies
    ∧ NoDup copies.*1
    ∧ (∀ a, a ∈ copies.*1 → heap w !! a = None)
    ∧ (∀ a c, (a, c) ∈ copies → heap w' !! a = Some c)
    ∧ (∀ x, x ∉ copies.*1 → heap w' !! x = heap w !! x).
Proof.
  revert current w. induction l as [|p l IH]; intros current w Hl.
  - exists [], w. split; [|repeat split].
    + simpl. unfold ret. f_equal. destruct current. simpl.
      unfold AssetManager.set_bundleList. simpl. by rewrite app_nil_r.
    + constructor.
    + constructor.
    + intros a Ha. by apply elem_of_nil in Ha.
    + intros a c Ha. by apply elem_of_nil in Ha.
  - apply Forall_cons in Hl as [Hp Hl].
    destruct (live_inv _ _ Hp) as (a0 & b & -> & Hb).
    set (a := fresh (dom (heap w))).
    assert (Ha : heap w !! a = None) by apply fresh_unused.
    set (c' := inserted (AssetManager.m_front current)
                 (AssetManager.m_debug current) (AssetBundle.clone b)).
    set (current1 :=
           if AssetBundle.valid c'
           then AssetManager.set_bundleList
                  (AssetManager.m_bundleList current ++ [Some a]) current
           else current).
    set (w3 := mkWorld (<[a := c']> (heap w))
                 ((trace w ++ [EvCall a0 CClone])
                    ++ [EvCall a (CInit (AssetManager.m_front current));
                        EvCall a CReload])).
    assert (Hstep :
      AssetManager.clone_loop default_priority current (Some a0 :: l) w
      = AssetManager.clone_loop default_priority current1 l w3).
    { simpl AssetManager.clone_loop.
      rewrite (bind_done _ _ _ _ _ (query_live _ _ CClone AssetBundle.clone _ Hb)).
      rewrite (bind_done _ _ _ _ _ (alloc_run _ _)).
      erewrite bind_done;
        [|apply loadBundle_run; simpl; apply lookup_insert_eq].
      simpl. fold a. by rewrite insert_insert_eq. }
    assert (Hfe : AssetManager.m_front current1 = AssetManager.m_front current).
    { unfold current1. by destruct (AssetBundle.valid c'). }
    assert (Hdbg : AssetManager.m_debug current1 = AssetManager.m_debug current).
    { unfold current1. by destruct (AssetBundle.valid c'). }
    assert (Hl3 : Forall (live (heap w3)) l).
    { eapply Forall_impl; [exact Hl|]. intros q. apply live_insert. }
    destruct (IH current1 w3 Hl3)
      as (copies & w' & Hrun & Hcopies & Hnd & Hfresh & Hin & Hout).
    assert (Hanew : a ∉ copies.*1).
    { intros Hmem. specialize (Hfresh _ Hmem). simpl in Hfresh.
      by rewrite lookup_insert_eq in Hfresh. }
    exists ((a, c') :: copies), w'. split; [|split; [|split; [|split; [|split]]]].
    + etrans; [exact Hstep|]. rewrite Hrun. f_equal.
      rewrite filter_cons. unfold current1. cbn [snd].
      destruct (AssetBundle.valid c') eqn:Hvalid.
      * rewrite decide_True by done. rewrite set_bundleList_twice.
        cbn. by rewrite <- app_assoc.
      * by rewrite decide_False by exact id.
    + constructor.
      * exists b. simpl. by split.
      * eapply Forall2_impl_l; [exact Hl|exact Hcopies|].
        intros q ac (x & bx & -> & Hx)%live_inv (bq & Hbq & Hac).
        exists bq. rewrite Hfe, Hdbg in Hac. split; [|done].
        simpl in *. rewrite lookup_insert_ne in Hbq; [done|congruence].
    + simpl. apply NoDup_cons. by split.
    + intros x [->|Hx]%elem_of_cons; [done|].
      specialize (Hfresh _ Hx). simpl in Hfresh.
      rewrite lookup_insert_ne in Hfresh; [done|].
      intros ->. by apply Hanew.
    + intros x c [[= -> ->]|Hx]%elem_of_cons; [|by apply Hin].
      rewrite Hout by done. simpl. apply lookup_insert_eq.
    + intros x Hx. simpl in Hx. apply not_elem_of_cons in Hx as [Hne Hx].
      rewrite Hout by done. simpl. by rewrite lookup_insert_ne.
Qed.

Lemma copies_functional copies a c c0 :
  NoDup copies.*1 → (a, c) ∈ copies → (a, c0) ∈ copies → c = c0.
Proof.
  induction copies as [|[x y] copies IH]; simpl; intros Hnd H1 H2.
  - by apply elem_of_nil in H1.
  - apply NoDup_cons in Hnd as [Hx Hnd].
    apply elem_of_cons in H1 as [H1|H1];
      apply elem_of_cons in H2 as [H2|H2].
    + congruence.
    + destruct Hx. apply list_elem_of_fmap. exists (a, c0).
      split; [simpl; congruence|done].
    + destruct Hx. apply list_elem_of_fmap. exists (a, c).
      split; [simpl; congruence|done].
    + by apply IH.
Qed.

Lemma copies_registry_elem copies a :
  Some a ∈ (Some <$> (filter (λ ac, AssetBundle.valid ac.2) copies).*1
            : list ptr)
  ↔ ∃ c, (a, c) ∈ copies ∧ AssetBundle.valid c = true.
Proof.
  rewrite list_elem_of_fmap. split.
  - intros (x & [= <-] & Hx). apply list_elem_of_fmap in Hx as ([x c] & -> & Hx).
    apply list_elem_of_filter in Hx as [Hvalid Hx]. simpl in *.
    exists c. split; [done|]. by apply Is_true_eq_true.
  - intros (c & Hc & Hvalid). exists a. split; [done|].
    apply list_elem_of_fmap. exists (a, c). split; [done|].
    apply list_elem_of_filter. split; [|done]. simpl. by rewrite Hvalid.
Qed.

Lemma copies_registry_NoDup copies :
  NoDup copies.*1 →
  NoDup (Some <$> (filter (λ ac, AssetBundle.valid ac.2) copies).*1 : list ptr).
Proof.
  intros Hnd. apply (NoDup_fmap_2 Some).
  induction copies as [|[a c] copies IH]; [constructor|].
  simpl in Hnd. apply NoDup_cons in Hnd as [Ha Hnd].
  rewrite filter_cons. case_decide; [|by apply IH].
  simpl. apply NoDup_cons. split; [|by apply IH].
  intros ([x c'] & Heq & Hx)%list_elem_of_fmap. simpl in Heq. subst x.
  apply list_elem_of_filter in Hx as [_ Hx].
  apply Ha. apply list_elem_of_fmap. by exists (a, c').
Qed.

(** C5. [clone()] of a manager with a live registry returns a new
    manager.  Every source bundle is copied into a fresh object, and the
    copy goes through [loadBundle] of the new manager, which at that time
    has no collaborator bound: the new registry lists, in source order,
    the copies that were valid after [init] and [reload].  The new
    manager is then activated with the source's front-end and debug log.
    The source's bundles are not touched, the registries share no
    pointer, and destroying a bundle of the new manager leaves the
    bundles of the source as they were. *)
Theorem clone_is_independent_copy default_priority this w :
  Forall (live (heap w)) (AssetManager.m_bundleList this) →
  ∃ current w' copies,
    AssetManager.clone default_priority this w = Done current w'
    ∧ Forall2 (λ p ac, ∃ b, peek (heap w) p = Some b
                            ∧ ac.2 = inserted None None (AssetBundle.clone b))
        (AssetManager.m_bundleList this) copies
    ∧ NoDup copies.*1
    ∧ (∀ a, a ∈ copies.*1 → heap w !! a = None)
    ∧ AssetManager.m_bundleList current
      = Some <$> (filter (λ ac, AssetBundle.valid ac.2) copies).*1
    ∧ AssetManager.m_front current = AssetManager.m_front this
    ∧ AssetManager.m_debug current = AssetManager.m_debug this
    ∧ (AssetManager.activated current = true
       ↔ AssetManager.m_front this ≠ None ∧ AssetManager.m_debug this ≠ None)
    ∧ (∀ a c, (a, c) ∈ copies →
         heap w' !! a
         = Some (if AssetBundle.valid c
                 then AssetBundle.reload_fe (AssetManager.m_front this) c
                 else c))
    ∧ (∀ x, x ∉ copies.*1 → heap w' !! x = heap w !! x)
    ∧ (∀ p, p ∈ AssetManager.m_bundleList current →
         p ∉ AssetManager.m_bundleList this)
    ∧ (∀ p, p ∈ AssetManager.m_bundleList this →
         peek (heap w') p = peek (heap w) p)
    ∧ (∀ a, Some a ∈ AssetManager.m_bundleList current →
         ∃ current2 w2,
           AssetManager.deleteBundle current (Some a) w' = Done (false, current2) w2
           ∧ ∀ p, p ∈ AssetManager.m_bundleList this →
                  peek (heap w2) p = peek (heap w) p).
Proof.
  intros Hl.
  destruct (clone_loop_run default_priority AssetManager.default _ _ Hl)
    as (copies & w1 & Hrun & Hcopies & Hnd & Hfresh & Hin & Hout).
  simpl in Hrun.
  set (registry := (Some <$> (filter (λ ac, AssetBundle.valid ac.2) copies).*1
                    : list ptr)) in *.
  set (fe := AssetManager.m_front this).
  set (dbg := AssetManager.m_debug this).
  assert (Hreg : Forall (live (heap w1)) registry).
  { apply Forall_forall. intros p Hp.
    apply list_elem_of_fmap in Hp as (a & -> & Ha).
    assert (Hmem : Some a ∈ registry) by (by apply list_elem_of_fmap_2).
    apply copies_registry_elem in Hmem as (c & Hc & _).
    exists c. simpl. by apply Hin. }
  assert (Hregnd : NoDup registry) by (by apply copies_registry_NoDup).
  assert (Hsrc : ∀ p, p ∈ AssetManager.m_bundleList this →
                      ∃ x bx, p = Some x ∧ heap w !! x = Some bx
                              ∧ x ∉ copies.*1).
  { intros p Hp.
    destruct (live_inv _ _ (proj1 (Forall_forall _ _) Hl p Hp))
      as (x & bx & -> & Hx).
    exists x, bx. repeat split; [done|].
    intros Hmem. specialize (Hfresh _ Hmem). congruence. }
  assert (Hnotreg : ∀ x, x ∉ copies.*1 → Some x ∉ registry).
  { intros x Hx (c & Hc & _)%copies_registry_elem.
    apply Hx. apply list_elem_of_fmap. by exists (x, c). }
  set (w' := mkWorld (reloaded fe registry (heap w1))
               (trace w1 ++ calls (CReloadFe fe) registry)).
  assert (Hout' : ∀ x, x ∉ copies.*1 → heap w' !! x = heap w !! x).
  { intros x Hx. simpl. rewrite reloaded_lookup by done.
    rewrite decide_False by (by apply Hnotreg). by apply Hout. }
  exists (AssetManager.mk registry fe dbg
            (match fe, dbg with Some _, Some _ => true | _, _ => false end)),
    w', copies.
  split; [|split; [|split; [|split; [|split; [|split; [|split; [|split]]]]]]].
  - unfold AssetManager.clone.
    rewrite (bind_done _ _ _ _ _ Hrun).
    by rewrite activate_run.
  - exact Hcopies.
  - exact Hnd.
  - exact Hfresh.
  - done.
  - done.
  - done.
  - simpl. fold fe dbg. destruct fe, dbg; intuition congruence.
  - split; [|split; [|split; [|split]]].
    + intros a c Hc. simpl. rewrite reloaded_lookup by done.
      rewrite (Hin _ _ Hc). simpl.
      destruct (AssetBundle.valid c) eqn:Hvalid.
      * rewrite decide_True; [done|].
        apply copies_registry_elem. by exists c.
      * rewrite decide_False; [done|].
        intros (c0 & Hc0 & Hvalid0)%copies_registry_elem.
        rewrite (copies_functional _ _ _ _ Hnd Hc Hc0) in Hvalid. congruence.
    + exact Hout'.
    + simpl. intros p Hp Hp'.
      destruct (Hsrc _ Hp') as (x & bx & -> & _ & Hx).
      by apply (Hnotreg x).
    + intros p Hp. destruct (Hsrc _ Hp) as (x & bx & -> & _ & Hx).
      simpl peek. by apply Hout'.
    + simpl. intros a Ha.
      assert (Hlive : live (heap w') (Some a)).
      { apply update_live_reloaded. by apply (proj1 (Forall_forall _ _) Hreg). }
      eexists _, _. split; [by apply deleteBundle_run|].
      intros p Hp. destruct (Hsrc _ Hp) as (x & bx & -> & _ & Hx).
      simpl. rewrite lookup_delete_ne; [by apply Hout'|].
      intros ->. by apply (Hnotreg x).
Qed.

End Clone.

(** ** The theorems at work on concrete registries *)

Section Examples.
Import Pack.

(** C1. A sound lookup on the registry [[A; B]], where [A] has no sound
    (it answers null) and [B] has a clean one: [B] is the first bundle
    with a clean result, yet neither overload returns it; each calls
    [error()] through the null pointer that [A] returned.  The image
    lookup on the same registry tests for null and returns [B]'s image,
    without a log entry. *)
Theorem loadSound_null_before_clean_crashes :
  let this := manager [Some A; Some B] in
  let w := world [(A, silent); (B, full)] in
  answer (heap w) (AssetBundle.loadSound 4 "win") (Some A) = Some None
  ∧ answer (heap w) (AssetBundle.loadSound 4 "win") (Some B)
    = Some (Some good_sound)
  ∧ AssetManager.loaded_ok (Some good_sound) = true
  ∧ AssetManager.loadSound to_string this 4 "win" w = Crash NullHandle
  ∧ AssetManager.loadSound_character to_string this 4 7 w = Crash NullHandle
  ∧ AssetManager.loadImage to_string this 4 "win" w
    = Done (Some good_image)
        (mkWorld (heap w)
           [EvCall A (CLoadImage 4 "win"); EvCall B (CLoadImage 4 "win")]).
Proof.
  intros this w. split; [reflexivity|]. split; [reflexivity|].
  split; [reflexivity|]. split; [|split].
  - unfold AssetManager.loadSound, AssetManager.sound_loop. reflexivity.
  - unfold AssetManager.loadSound_character, AssetManager.sound_loop.
    reflexivity.
  - reflexivity.
Qed.

(** C3 at work: a usable bundle, created without a debug log, is
    appended behind [A] whatever the priority; it was initialised and
    reloaded, and now holds the debug log of the manager. *)
Lemma loadBundle_appends_iff_valid_witness :
  let this := manager [Some A] in
  let w := world [(A, silent); (B, full)] in
  heap w !! B = Some (bundle full)
  ∧ AssetBundle.m_debug (bundle full) = None
  ∧ AssetManager.loadBundle this (Some B) 3 w
    = Done (true, manager [Some A; Some B])
        (mkWorld (<[B := AssetBundle.mk true true (Some 2%positive) full]> (heap w))
           [EvCall B (CInit (Some 1%positive)); EvCall B CReload])
  ∧ AssetBundle.m_debug
      (inserted (AssetManager.m_front this) (AssetManager.m_debug this)
         (bundle full))
    = Some 2%positive.
Proof.
  intros this w. split; [reflexivity|]. split; [reflexivity|].
  destruct (loadBundle_appends_iff_valid this B (bundle full) 3 w eq_refl)
    as (Hrun & Hdebug & _).
  split; [exact Hrun|exact Hdebug].
Defined.

(** C9 at work: both entries for [A] go, [B] stays, [A] is destroyed. *)
Lemma deleteBundle_removes_and_destroys_witness :
  let this := manager [Some A; Some B; Some A] in
  let w := world [(A, silent); (B, full)] in
  live (heap w) (Some A)
  ∧ ∃ this' w',
      AssetManager.deleteBundle this (Some A) w = Done (false, this') w'
      ∧ AssetManager.m_bundleList this' = [Some B]
      ∧ heap w' !! A = None
      ∧ heap w' !! B = Some (bundle full).
Proof.
  intros this w.
  assert (Hlive : live (heap w) (Some A)) by (eexists; reflexivity).
  split; [exact Hlive|].
  destruct (deleteBundle_removes_and_destroys this A w Hlive)
    as (this' & w' & Hrun & Hlist & _ & _ & _ & _ & _ & Hheap & _ & _).
  exists this', w'. split; [exact Hrun|]. split; [by rewrite Hlist|].
  rewrite Hheap. by split.
Defined.

(** C6 at work: the tombstone [B] leaves the registry and stays allocated. *)
Lemma unloadAll_keeps_active_witness :
  let this := manager [Some A; Some B] in
  let w := mkWorld (<[B := AssetBundle.mk true false None full]>
                      (heap (world [(A, silent)]))) [] in
  Forall (live (heap w)) (AssetManager.m_bundleList this)
  ∧ AssetManager.unloadAll this w = Done (false, manager [Some A]) w
  ∧ live (heap w) (Some B).
Proof.
  intros this w.
  assert (Hl : Forall (live (heap w)) (AssetManager.m_bundleList this))
    by all_live.
  split; [exact Hl|]. split; [|eexists; reflexivity].
  destruct (unloadAll_keeps_active this w Hl) as [Hrun _]. exact Hrun.
Defined.

(** C8 as stated fails.  The caller does not get the count: a registry of
    three entries and a registry of one both return [true], which reads
    back as 1.  And a bundle is not reloaded exactly once when the registry
    lists it twice, as it does after two [loadBundle] calls on it. *)
Lemma reloadBundles_returns_flag_not_count :
  let w := world [(A, silent); (B, full)] in
  let three := manager [Some A; Some B; Some A] in
  let one := manager [Some B] in
  (∃ w', AssetManager.reloadBundles three w = Done true w')
  ∧ (∃ w', AssetManager.reloadBundles one w = Done true w')
  ∧ Z.b2z true ≠ Z.of_nat (length (AssetManager.m_bundleList three))
  ∧ (∃ this1 w1 this2 w2,
       AssetManager.loadBundle (manager []) (Some A) 0 w = Done (true, this1) w1
       ∧ AssetManager.loadBundle this1 (Some A) 0 w1 = Done (true, this2) w2
       ∧ AssetManager.m_bundleList this2 = [Some A; Some A]
       ∧ ∃ w3,
           AssetManager.reloadBundles this2 w2 = Done true w3
           ∧ trace w3
             = trace w2 ++ [EvCall A (CReloadFe (Some 1%positive));
                            EvCall A (CReloadFe (Some 1%positive))]).
Proof.
  intros w three one.
  split; [eexists; reflexivity|]. split; [eexists; reflexivity|].
  split; [discriminate|].
  eexists _, _, _, _. split; [vm_compute; reflexivity|].
  split; [vm_compute; reflexivity|]. split; [reflexivity|].
  eexists. split; [vm_compute; reflexivity|reflexivity].
Qed.

(** C8, amended, at work: three entries, [A] twice, give three reloads,
    two of them on [A]; the count 3 reaches the caller as [true]. *)
Lemma reloadBundles_counts_every_bundle_witness :
  let this := manager [Some A; Some B; Some A] in
  let w := world [(A, silent); (B, full)] in
  Forall (live (heap w)) (AssetManager.m_bundleList this)
  ∧ (Z.of_nat (length (AssetManager.m_bundleList this)) < 2 ^ 31)%Z
  ∧ ∃ w',
      AssetManager.reloadBundles_loop (AssetManager.m_front this) 0
        (AssetManager.m_bundleList this) w = Done 3%Z w'
      ∧ AssetManager.reloadBundles this w = Done true w'
      ∧ trace w' = [EvCall A (CReloadFe (Some 1%positive));
                    EvCall B (CReloadFe (Some 1%positive));
                    EvCall A (CReloadFe (Some 1%positive))]
      ∧ length (filter (λ e, e = EvCall A (CReloadFe (Some 1%positive)))
                  (trace w')) = 2%nat.
Proof.
  intros this w.
  assert (Hl : Forall (live (heap w)) (AssetManager.m_bundleList this))
    by all_live.
  assert (Hn : (Z.of_nat (length (AssetManager.m_bundleList this)) < 2 ^ 31)%Z)
    by (simpl; lia).
  split; [exact Hl|]. split; [exact Hn|].
  destruct (reloadBundles_counts_every_bundle this w Hl Hn)
    as (Hloop & Hrun & _ & _ & Hcount).
  eexists. split; [exact Hloop|]. split; [exact Hrun|].
  split; [reflexivity|]. exact (Hcount A).
Defined.

(** C4 at work: without a debug log the manager is not activated, even if
    it was before. *)
Lemma activate_sets_flag_iff_bound_witness :
  let this := manager [Some A] in
  let w := world [(A, silent)] in
  Forall (live (heap w)) (AssetManager.m_bundleList this)
  ∧ AssetManager.activated this = true
  ∧ ∃ this' w',
      AssetManager.activate this (Some 5%positive) None w = Done this' w'
      ∧ AssetManager.activated this' = false
      ∧ AssetManager.m_front this' = Some 5%positive
      ∧ AssetManager.m_debug this' = None.
Proof.
  intros this w.
  assert (Hl : Forall (live (heap w)) (AssetManager.m_bundleList this))
    by all_live.
  split; [exact Hl|]. split; [reflexivity|].
  destruct (activate_sets_flag_iff_bound this (Some 5%positive) None w Hl)
    as (this' & Hrun & Hfe & Hdbg & _ & Hflag & _).
  exists this'. eexists. split; [exact Hrun|]. split; [|by split].
  destruct (AssetManager.activated this'); [|done].
  by destruct (proj1 Hflag eq_refl) as [_ []].
Defined.

(** C7 at work: the names of both bundles, each once. *)
Lemma enumeration_is_union_witness :
  let this := manager [Some A; Some B] in
  let w := world [(A, broken); (B, full)] in
  Forall (live (heap w)) (AssetManager.m_bundleList this)
  ∧ ∃ result w',
      AssetManager.listSfx this w = Done result w'
      ∧ ("classic" ∈ result ∧ "arle" ∈ result ∧ "fever" ∈ result)
      ∧ "schezo" ∉ result.
Proof.
  intros this w.
  assert (Hl : Forall (live (heap w)) (AssetManager.m_bundleList this))
    by all_live.
  split; [exact Hl|].
  destruct (enumeration_is_union this w Hl)
    as (_ & _ & _ & result & Hrun & Hmem & _).
  exists result. eexists. split; [exact Hrun|].
  assert (HA : peek (heap w) (Some A) = Some (bundle broken)) by reflexivity.
  assert (HB : peek (heap w) (Some B) = Some (bundle full)) by reflexivity.
  split; [split; [|split]|].
  - apply Hmem. exists (Some A), (bundle broken).
    split; [apply list_elem_of_here|]. split; [exact HA|]. by vm_compute.
  - apply Hmem. exists (Some B), (bundle full).
    split; [apply list_elem_of_further, list_elem_of_here|].
    split; [exact HB|]. by vm_compute.
  - apply Hmem. exists (Some B), (bundle full).
    split; [apply list_elem_of_further, list_elem_of_here|].
    split; [exact HB|]. by vm_compute.
  - intros (p & b & Hp & Hb & Hx)%Hmem.
    apply elem_of_cons in Hp as [->|Hp].
    + rewrite HA in Hb. injection Hb as <-. by vm_compute in Hx.
    + apply elem_of_cons in Hp as [->|Hp]; [|by apply elem_of_nil in Hp].
      rewrite HB in Hb. injection Hb as <-. by vm_compute in Hx.
Defined.

(** C2 as stated fails.  With [A] silent and [B] answering with an
    errored handle, no bundle supplies a clean image, and the image lookup
    returns [B]'s handle, which is not null.  On a manager without a debug
    log the exhausted lookup does not return at all: it logs through the
    null [m_debug].  And a sound lookup over [A], which answers null,
    stops at the null handle. *)
Lemma loadImage_exhausted_returns_errored_handle :
  let this := manager [Some A; Some B] in
  let w := world [(A, silent); (B, broken)] in
  Forall (fails (heap w) (AssetBundle.loadImage 3 "fireball"))
    (AssetManager.m_bundleList this)
  ∧ (∃ target w',
       AssetManager.loadImage to_string this 3 "fireball" w = Done target w'
       ∧ target = Some bad_image
       ∧ target ≠ None)
  ∧ AssetManager.loadImage to_string (unbound_manager [Some A; Some B])
      3 "fireball" w
    = Crash NullDebugLog
  ∧ Forall (fails (heap w) (AssetBundle.loadSound 3 "fireball")) [Some A]
  ∧ AssetManager.loadSound to_string (manager [Some A]) 3 "fireball" w
    = Crash NullHandle.
Proof.
  intros this w. split; [all_rejected|]. split; [|split; [|split]].
  - eexists _, _. split; [reflexivity|]. split; [reflexivity|discriminate].
  - reflexivity.
  - all_rejected.
  - reflexivity.
Qed.

(** C2, amended, at work: one log entry per exhausted lookup; the image
    lookup hands back the errored handle of the last bundle, the sound
    lookup null, the folder lookup the empty string. *)
Lemma lookup_exhausted_logs_once_witness :
  let this := manager [Some A; Some B] in
  let this' := manager [Some B] in
  let w := world [(A, silent); (B, broken)] in
  AssetManager.m_debug this = Some 2%positive
  ∧ AssetManager.m_debug this' = Some 2%positive
  ∧ AssetManager.loadImage to_string this 3 "fireball" w
    = Done (Some bad_image)
        (mkWorld (heap w)
           [EvCall A (CLoadImage 3 "fireball");
            EvCall B (CLoadImage 3 "fireball");
            EvLog 2%positive "Error loading image token 3 custom fireball" Error])
  ∧ AssetManager.loadSound_character to_string this' 6 11 w
    = Done None
        (mkWorld (heap w)
           [EvCall B (CLoadCharSound 6 11);
            EvLog 2%positive "Error loading sound token 6 character 11" Error])
  ∧ AssetManager.getAnimationFolder_character this 11 w
    = Done ""
        (mkWorld (heap w)
           [EvCall A (CGetCharAnimationsFolder 11);
            EvCall B (CGetCharAnimationsFolder 11);
            EvLog 2%positive "Error loading animation script character 11" Error]).
Proof.
  intros this this' w.
  split; [reflexivity|]. split; [reflexivity|].
  destruct (lookup_exhausted_logs_once to_string this 2%positive w eq_refl)
    as (Himage & _ & _ & _ & Hfolder & _).
  destruct (lookup_exhausted_logs_once to_string this' 2%positive w eq_refl)
    as (_ & _ & _ & Hsound & _).
  split; [|split].
  - refine (proj1 (Himage 3%Z "fireball" _)). all_rejected.
  - refine (Hsound 6%Z 11%Z _). all_rejected.
  - refine (Hfolder 11%Z _). all_rejected.
Defined.

(** C5 at work: [A] is copied to a fresh object that the clone registers;
    the copy of [B] does not survive [init] and stays out of the registry;
    the collaborators are shared and the source's bundles are untouched. *)
Lemma clone_is_independent_copy_witness :
  let this := manager [Some A; Some B] in
  let w := world [(A, full); (B, unusable)] in
  Forall (live (heap w)) (AssetManager.m_bundleList this)
  ∧ ∃ current w',
      AssetManager.clone 0 this w = Done current w'
      ∧ AssetManager.m_bundleList current = [Some 3%positive]
      ∧ AssetManager.m_front current = Some 1%positive
      ∧ AssetManager.m_debug current = Some 2%positive
      ∧ AssetManager.activated current = true
      ∧ (Some A ∉ AssetManager.m_bundleList current)
      ∧ peek (heap w') (Some A) = Some (bundle full)
      ∧ peek (heap w') (Some B) = Some (bundle unusable).
Proof.
  intros this w.
  assert (Hl : Forall (live (heap w)) (AssetManager.m_bundleList this))
    by all_live.
  split; [exact Hl|].
  destruct (clone_is_independent_copy 0 this w Hl)
    as (current & w' & copies & Hrun & _ & _ & _ & _ & Hfe & Hdbg & Hact
        & _ & _ & Hdisjoint & Hsame & _).
  exists current, w'. split; [exact Hrun|].
  assert (Hlist : AssetManager.m_bundleList current = [Some 3%positive]).
  { assert (Heval : ∃ w0, AssetManager.clone 0 this w
                          = Done (manager [Some 3%positive]) w0)
      by (eexists; vm_compute; reflexivity).
    destruct Heval as [w0 Heval]. rewrite Heval in Hrun.
    by injection Hrun as <- _. }
  split; [exact Hlist|]. split; [exact Hfe|]. split; [exact Hdbg|].
  split; [by apply Hact|]. split; [|split].
  - rewrite Hlist. intros [=]%list_elem_of_singleton.
  - rewrite Hsame; [reflexivity|apply list_elem_of_here].
  - rewrite Hsame; [reflexivity|].
    apply list_elem_of_further, list_elem_of_here.
Defined.

End Examples.

(** ** Successful lookups *)

Section FirstAnswer.
Context {S : Type} `{!AssetBundle.Impl S}.
Variable toString : Z → string.
Implicit Types (w : World S) (this : AssetManager.t).

(** Both image lookups return the image of the first bundle that has a
    clean one.  The bundles behind it are not called, need not even be
    alive, and the debug log is not touched, bound or not. *)
Theorem image_lookup_first_clean_wins this pre a post w :
  AssetManager.m_bundleList this = pre ++ Some a :: post →
  (∀ token custom b,
     Forall (fails (heap w) (AssetBundle.loadImage token custom)) pre →
     heap w !! a = Some b →
     AssetManager.loaded_ok (AssetBundle.loadImage token custom b) = true →
     AssetManager.loadImage toString this token custom w
     = Done (AssetBundle.loadImage token custom b)
         (mkWorld (heap w)
            (trace w ++ calls (CLoadImage token custom) (pre ++ [Some a]))))
  ∧ (∀ token character b,
       Forall (fails (heap w) (AssetBundle.loadCharImage token character)) pre →
       heap w !! a = Some b →
       AssetManager.loaded_ok (AssetBundle.loadCharImage token character b) = true →
       AssetManager.loadImage_character toString this token character w
       = Done (AssetBundle.loadCharImage token character b)
           (mkWorld (heap w)
              (trace w ++ calls (CLoadCharImage token character)
                            (pre ++ [Some a])))).
Proof.
  intros Hl. split.
  - intros token custom b Hpre Hb Hok. by eapply loadImage_first_clean.
  - intros token character b Hpre Hb Hok.
    by eapply loadImage_character_first_clean.
Qed.

(** Both sound lookups return the sound of the first bundle that has a
    clean one, provided every bundle before it answered with a handle (an
    errored one).  The bundles behind it are not called and the debug log
    is not touched. *)
Theorem sound_lookup_first_clean_wins this pre a post w :
  AssetManager.m_bundleList this = pre ++ Some a :: post →
  (∀ token custom b,
     Forall (errors (heap w) (AssetBundle.loadSound token custom)) pre →
     heap w !! a = Some b →
     AssetManager.loaded_ok (AssetBundle.loadSound token custom b) = true →
     AssetManager.loadSound toString this token custom w
     = Done (AssetBundle.loadSound token custom b)
         (mkWorld (heap w)
            (trace w ++ calls (CLoadSound token custom) (pre ++ [Some a]))))
  ∧ (∀ token character b,
       Forall (errors (heap w) (AssetBundle.loadCharSound token character)) pre →
       heap w !! a = Some b →
       AssetManager.loaded_ok (AssetBundle.loadCharSound token character b) = true →
       AssetManager.loadSound_character toString this token character w
       = Done (AssetBundle.loadCharSound token character b)
           (mkWorld (heap w)
              (trace w ++ calls (CLoadCharSound token character)
                            (pre ++ [Some a])))).
Proof.
  intros Hl. split.
  - intros token custom b Hpre Hb Hok. by eapply loadSound_first_clean.
  - intros token character b Hpre Hb Hok.
    by eapply loadSound_character_first_clean.
Qed.

(** Both folder lookups return the path of the first bundle that answers
    with a non-empty one; the bundles behind it are not called and the
    debug log is not touched. *)
Theorem folder_lookup_first_path_wins this pre a post w :
  AssetManager.m_bundleList this = pre ++ Some a :: post →
  (∀ character b,
     Forall (no_folder (heap w) (AssetBundle.getCharAnimationsFolder character))
       pre →
     heap w !! a = Some b →
     empty_string (AssetBundle.getCharAnimationsFolder character b) = false →
     AssetManager.getAnimationFolder_character this character w
     = Done (AssetBundle.getCharAnimationsFolder character b)
         (mkWorld (heap w)
            (trace w ++ calls (CGetCharAnimationsFolder character)
                          (pre ++ [Some a]))))
  ∧ (∀ token script_name b,
       Forall (no_folder (heap w)
                 (AssetBundle.getAnimationFolder token script_name)) pre →
       heap w !! a = Some b →
       empty_string (AssetBundle.getAnimationFolder token script_name b) = false →
       AssetManager.getAnimationFolder toString this token script_name w
       = Done (AssetBundle.getAnimationFolder token script_name b)
           (mkWorld (heap w)
              (trace w ++ calls (CGetAnimationFolder token script_name)
                            (pre ++ [Some a])))).
Proof.
  intros Hl. split.
  - intros character b Hpre Hb Hok.
    by eapply getAnimationFolder_character_first_found.
  - intros token script_name b Hpre Hb Hok.
    by eapply getAnimationFolder_first_found.
Qed.

End FirstAnswer.

(** ** What a lookup returns and logs *)

Section LookupOutcome.
Context {S : Type} `{!AssetBundle.Impl S}.
Variable toString : Z → string.
Implicit Types (w : World S) (h : gmap positive (AssetBundle.t S)).
Implicit Types (this : AssetManager.t) (l : list ptr).

Lemma logs_app tr1 tr2 : logs (tr1 ++ tr2) = logs tr1 ++ logs tr2.
Proof. unfold logs. apply omap_app. Qed.

Lemma logs_calls c l : logs (calls c l) = [].
Proof.
  induction l as [|[a|] l IH]; [done|exact IH|exact IH].
Qed.

Lemma answer_live_eq {T} h (f : AssetBundle.t S → T) a b :
  h !! a = Some b → answer h f (Some a) = Some (f b).
Proof. intros Hb. unfold answer. simpl. by rewrite Hb. Qed.

(** A loop whose [break] test is a plain predicate [ok] on the answer. *)
Lemma pure_loop_total {T} c (f : AssetBundle.t S → T) (ok : T → bool)
    target0 l w :
  ok target0 = false →
  Forall (live (heap w)) l →
  ∃ target tr,
    AssetManager.lookup_loop (λ p, query p c f) (λ t, ret (ok t)) id target0 l w
    = Done target (mkWorld (heap w) (trace w ++ tr))
    ∧ logs tr = []
    ∧ (ok target = true
       ↔ Exists (λ p, ∃ r, answer (heap w) f p = Some r ∧ ok r = true) l).
Proof.
  revert target0 w. induction l as [|p l IH]; intros target0 w H0 Hl.
  - exists target0, []. split; [|split].
    + simpl. unfold ret. rewrite app_nil_r. by destruct w.
    + done.
    + rewrite H0. split; [done|]. by intros ?%Exists_nil.
  - apply Forall_cons in Hl as [Hp Hl].
    destruct (live_inv _ _ Hp) as (a & b & -> & Hb).
    simpl AssetManager.lookup_loop.
    rewrite (bind_done _ _ _ _ _ (query_live _ _ c f _ Hb)).
    unfold bind at 1, ret at 1.
    destruct (ok (f b)) eqn:Hok.
    + exists (f b), [EvCall a c]. split; [done|]. split; [done|].
      rewrite Hok. split; [|done]. intros _. apply Exists_cons. left.
      exists (f b). split; [by apply answer_live_eq|done].
    + destruct (IH (f b) (mkWorld (heap w) (trace w ++ [EvCall a c]))
                  Hok Hl) as (target & tr & Hrun & Hlogs & Hiff).
      exists target, (EvCall a c :: tr). split; [|split].
      * etrans; [exact Hrun|]. simpl. by rewrite <- app_assoc.
      * exact Hlogs.
      * rewrite Hiff. simpl. rewrite Exists_cons. split; [by right|].
        intros [(r & Hr & Hrok)|?]; [|done].
        rewrite (answer_live_eq _ _ _ _ Hb) in Hr. injection Hr as <-.
        congruence.
Qed.

(** The loop followed by the failure test, the log entry and the return. *)
Lemma pure_lookup_total {T} c (f : AssetBundle.t S → T) (ok flag : T → bool)
    target0 msg d l w :
  (∀ t, flag t = negb (ok t)) →
  ok target0 = false →
  Forall (live (heap w)) l →
  ∃ target tr,
    (let* target :=
       AssetManager.lookup_loop (λ p, query p c f) (λ t, ret (ok t)) id
         target0 l in
     (if flag target then log (Some d) msg Error else ret tt) >> ret target) w
    = Done target (mkWorld (heap w) (trace w ++ tr))
    ∧ logs tr = (if ok target then [] else [(d, msg, Error)])
    ∧ (ok target = true
       ↔ Exists (λ p, ∃ r, answer (heap w) f p = Some r ∧ ok r = true) l).
Proof.
  intros Hflag H0 Hl.
  destruct (pure_loop_total c f ok target0 l w H0 Hl)
    as (target & tr & Hrun & Hlogs & Hiff).
  rewrite (finish_lookup _ flag (Some d) msg _ _ _ Hrun), Hflag.
  destruct (ok target) eqn:Hok; simpl.
  - exists target, tr. by rewrite Hok.
  - exists target, (tr ++ [EvLog d msg Error]). split; [|split].
    + by rewrite app_assoc.
    + by rewrite Hok, logs_app, Hlogs.
    + by rewrite Hok.
Qed.

(** On a live registry and with a bound debug log an image lookup always
    returns, and no bundle is changed or destroyed.  The handle returned is
    clean exactly when some bundle has a clean image; the call then logs
    nothing, and otherwise logs one error. *)
Theorem image_lookup_returns this d w :
  Forall (live (heap w)) (AssetManager.m_bundleList this) →
  AssetManager.m_debug this = Some d →
  (∀ token custom, ∃ target tr,
     AssetManager.loadImage toString this token custom w
     = Done target (mkWorld (heap w) (trace w ++ tr))
     ∧ logs tr
       = (if AssetManager.loaded_ok target then []
          else [(d, "Error loading image token " +:+ toString token
                      +:+ " custom " +:+ custom, Error)])
     ∧ (AssetManager.loaded_ok target = true
        ↔ Exists (clean (heap w) (AssetBundle.loadImage token custom))
            (AssetManager.m_bundleList this)))
  ∧ (∀ token character, ∃ target tr,
       AssetManager.loadImage_character toString this token character w
       = Done target (mkWorld (heap w) (trace w ++ tr))
       ∧ logs tr
         = (if AssetManager.loaded_ok target then []
            else [(d, "Error loading image token " +:+ toString token
                        +:+ " character " +:+ to_string character, Error)])
       ∧ (AssetManager.loaded_ok target = true
          ↔ Exists (clean (heap w) (AssetBundle.loadCharImage token character))
              (AssetManager.m_bundleList this))).
Proof.
  intros Hl Hd. split.
  - intros token custom. unfold AssetManager.loadImage, AssetManager.image_loop.
    rewrite Hd.
    apply (pure_lookup_total _ _ AssetManager.loaded_ok
             AssetManager.null_or_error); [|done|done].
    apply loaded_ok_null_or_error.
  - intros token character.
    unfold AssetManager.loadImage_character, AssetManager.image_loop.
    rewrite Hd.
    apply (pure_lookup_total _ _ AssetManager.loaded_ok
             AssetManager.null_or_error); [|done|done].
    apply loaded_ok_null_or_error.
Qed.

Lemma folder_tail_total c (f : AssetBundle.t S → string) msg d l w :
  Forall (live (heap w)) l →
  ∃ target tr,
    (let* target := AssetManager.folder_loop (λ p, query p c f) l in
     (if empty_string target then log (Some d) msg Error else ret tt)
     >> ret target) w
    = Done target (mkWorld (heap w) (trace w ++ tr))
    ∧ logs tr = (if empty_string target then [(d, msg, Error)] else [])
    ∧ (empty_string target = false ↔ Exists (has_folder (heap w) f) l).
Proof.
  intros Hl.
  destruct (pure_lookup_total c f (λ t, negb (empty_string t)) empty_string
              "" msg d l w) as (target & tr & Hrun & Hlogs & Hiff);
    [intros t; by rewrite negb_involutive|done|done|].
  exists target, tr. split; [exact Hrun|]. split.
  - rewrite Hlogs. by destruct (empty_string target).
  - rewrite <- negb_true_iff, Hiff.
    split; intros Hex; (eapply Exists_impl; [exact Hex|]);
      intros p (r & Hr & Hx); exists r; (split; [done|]);
      by apply negb_true_iff.
Qed.

(** The same for the folder lookups: the path returned is non-empty
    exactly when some bundle answers with a non-empty path; the call then
    logs nothing, and otherwise logs one error. *)
Theorem folder_lookup_returns this d w :
  Forall (live (heap w)) (AssetManager.m_bundleList this) →
  AssetManager.m_debug this = Some d →
  (∀ character, ∃ target tr,
     AssetManager.getAnimationFolder_character this character w
     = Done target (mkWorld (heap w) (trace w ++ tr))
     ∧ logs tr
       = (if empty_string target
          then [(d, "Error loading animation script character "
                      +:+ to_string character, Error)]
          else [])
     ∧ (empty_string target = false
        ↔ Exists (has_folder (heap w)
                    (AssetBundle.getCharAnimationsFolder character))
            (AssetManager.m_bundleList this)))
  ∧ (∀ token script_name, ∃ target tr,
       AssetManager.getAnimationFolder toString this token script_name w
       = Done target (mkWorld (heap w) (trace w ++ tr))
       ∧ logs tr
         = (if empty_string target
            then [(d, "Error loading animation script token "
                        +:+ toString token, Error)]
            else [])
       ∧ (empty_string target = false
          ↔ Exists (has_folder (heap w)
                      (AssetBundle.getAnimationFolder token script_name))
              (AssetManager.m_bundleList this))).
Proof.
  intros Hl Hd. split.
  - intros character. unfold AssetManager.getAnimationFolder_character.
    rewrite Hd. by apply folder_tail_total.
  - intros token script_name. unfold AssetManager.getAnimationFolder.
    rewrite Hd. by apply folder_tail_total.
Qed.

Lemma sound_loop_total c (f : AssetBundle.t S → option FeSound) l w :
  Forall (non_null (heap w) f) l →
  ∃ target tr,
    AssetManager.sound_loop (λ p, query p c f) l w
    = Done target (mkWorld (heap w) (trace w ++ tr))
    ∧ logs tr = []
    ∧ (AssetManager.loaded_ok target = true ↔ Exists (clean (heap w) f) l)
    ∧ (AssetManager.loaded_ok target = false → target = None).
Proof.
  revert w. induction l as [|p l IH]; intros w Hl.
  - exists None, []. split; [|split; [|split]].
    + simpl. unfold ret. rewrite app_nil_r. by destruct w.
    + done.
    + split; [done|]. by intros ?%Exists_nil.
    + done.
  - apply Forall_cons in Hl as [(s & Hs) Hl].
    destruct (answer_inv _ _ _ _ Hs) as (a & b & -> & Hb & Hf).
    unfold AssetManager.sound_loop. simpl AssetManager.lookup_loop.
    rewrite (bind_done _ _ _ _ _ (query_live _ _ c f _ Hb)), Hf.
    unfold bind at 1. simpl.
    destruct (error s) eqn:Herr; simpl.
    + destruct (IH (mkWorld (heap w) (trace w ++ [EvCall a c])) Hl)
        as (target & tr & Hrun & Hlogs & Hiff & Hnull).
      exists target, (EvCall a c :: tr). split; [|split; [|split]].
      * etrans; [exact Hrun|]. simpl. by rewrite <- app_assoc.
      * exact Hlogs.
      * rewrite Hiff. simpl. rewrite Exists_cons. split; [by right|].
        intros [(r & Hr & Hrok)|?]; [|done].
        rewrite Hs in Hr. injection Hr as <-. simpl in Hrok.
        rewrite Herr in Hrok. done.
      * exact Hnull.
    + exists (Some s), [EvCall a c]. split; [done|]. split; [done|].
      simpl. rewrite Herr. split; [|done]. split; [|done].
      intros _. apply Exists_cons. left. exists (Some s).
      split; [done|]. simpl. by rewrite Herr.
Qed.

Lemma sound_tail_total c (f : AssetBundle.t S → option FeSound) msg d l w :
  Forall (non_null (heap w) f) l →
  ∃ target tr,
    (let* target := AssetManager.sound_loop (λ p, query p c f) l in
     (if AssetManager.null_or_error target then log (Some d) msg Error
      else ret tt) >> ret target) w
    = Done target (mkWorld (heap w) (trace w ++ tr))
    ∧ logs tr = (if AssetManager.loaded_ok target then [] else [(d, msg, Error)])
    ∧ (AssetManager.loaded_ok target = true ↔ Exists (clean (heap w) f) l)
    ∧ (AssetManager.loaded_ok target = false → target = None).
Proof.
  intros Hl.
  destruct (sound_loop_total c f l w Hl)
    as (target & tr & Hrun & Hlogs & Hiff & Hnull).
  rewrite (finish_lookup _ _ (Some d) msg _ _ _ Hrun),
    loaded_ok_null_or_error.
  destruct (AssetManager.loaded_ok target) eqn:Hok; simpl.
  - exists target, tr. by rewrite Hok.
  - exists target, (tr ++ [EvLog d msg Error]). split; [|split].
    + by rewrite app_assoc.
    + by rewrite Hok, logs_app, Hlogs.
    + by rewrite Hok.
Qed.

(** With a bound debug log, a sound lookup over bundles that all answer
    with a handle always returns.  It returns a clean handle exactly when
    some bundle has one, and then logs nothing; otherwise it returns null
    and logs one error. *)
Theorem sound_lookup_returns this d w :
  AssetManager.m_debug this = Some d →
  (∀ token custom,
     Forall (non_null (heap w) (AssetBundle.loadSound token custom))
       (AssetManager.m_bundleList this) →
     ∃ target tr,
       AssetManager.loadSound toString this token custom w
       = Done target (mkWorld (heap w) (trace w ++ tr))
       ∧ logs tr
         = (if AssetManager.loaded_ok target then []
            else [(d, "Error loading sound token " +:+ toString token
                        +:+ " custom " +:+ custom, Error)])
       ∧ (AssetManager.loaded_ok target = true
          ↔ Exists (clean (heap w) (AssetBundle.loadSound token custom))
              (AssetManager.m_bundleList this))
       ∧ (AssetManager.loaded_ok target = false → target = None))
  ∧ (∀ token character,
       Forall (non_null (heap w) (AssetBundle.loadCharSound token character))
         (AssetManager.m_bundleList this) →
       ∃ target tr,
         AssetManager.loadSound_character toString this token character w
         = Done target (mkWorld (heap w) (trace w ++ tr))
         ∧ logs tr
           = (if AssetManager.loaded_ok target then []
              else [(d, "Error loading sound token " +:+ toString token
                          +:+ " character " +:+ to_string character, Error)])
         ∧ (AssetManager.loaded_ok target = true
            ↔ Exists (clean (heap w) (AssetBundle.loadCharSound token character))
                (AssetManager.m_bundleList this))
         ∧ (AssetManager.loaded_ok target = false → target = None)).
Proof.
  intros Hd. split.
  - intros token custom Hl. unfold AssetManager.loadSound. rewrite Hd.
    by apply sound_tail_total.
  - intros token character Hl. unfold AssetManager.loadSound_character.
    rewrite Hd. by apply sound_tail_total.
Qed.

Lemma sound_loop_never_errored c (f : AssetBundle.t S → option FeSound)
    l w target w' :
  AssetManager.sound_loop (λ p, query p c f) l w = Done target w' →
  target = None ∨ AssetManager.loaded_ok target = true.
Proof.
  revert w. induction l as [|p l IH]; intros w.
  - intros [= <- _]. by left.
  - unfold AssetManager.sound_loop. simpl AssetManager.lookup_loop.
    destruct (peek (heap w) p) as [b|] eqn:Hp.
    + destruct p as [a|]; [simpl in Hp|done].
      rewrite (bind_done _ _ _ _ _ (query_live _ _ c f _ Hp)).
      destruct (f b) as [s|] eqn:Hf; [|done].
      unfold bind at 1. simpl. destruct (error s) eqn:Herr; simpl.
      * apply IH.
      * intros [= <- _]. right. simpl. by rewrite Herr.
    + rewrite (bind_crash _ _ _ InvalidBundle); [done|].
      apply query_dead. unfold live. rewrite Hp. by intros [].
Qed.

Lemma lookup_tail_result {T} (loop : M S T) (flag : T → bool) dbg msg w
    target w' :
  (let* target := loop in
   (if flag target then log dbg msg Error else ret tt) >> ret target) w
  = Done target w' →
  ∃ w0, loop w = Done target w0.
Proof.
  destruct (loop w) as [t w0|e] eqn:Hloop.
  - rewrite (finish_lookup _ _ _ _ _ _ _ Hloop).
    destruct (flag t); [destruct dbg as [d|]|]; try done;
      intros [= <- _]; by eexists.
  - by rewrite (finish_lookup_crash _ _ _ _ _ _ Hloop).
Qed.

(** A sound lookup never hands an errored handle to its caller: whatever
    the registry, what it returns is null or a clean handle.  (An image
    lookup may return an errored handle.) *)
Theorem sound_lookup_result_null_or_clean this w :
  (∀ token custom target w',
     AssetManager.loadSound toString this token custom w = Done target w' →
     target = None ∨ AssetManager.loaded_ok target = true)
  ∧ (∀ token character target w',
       AssetManager.loadSound_character toString this token character w
       = Done target w' →
       target = None ∨ AssetManager.loaded_ok target = true).
Proof.
  split.
  - intros token custom target w' Hrun.
    apply lookup_tail_result in Hrun as [w0 Hloop].
    by eapply sound_loop_never_errored.
  - intros token character target w' Hrun.
    apply lookup_tail_result in Hrun as [w0 Hloop].
    by eapply sound_loop_never_errored.
Qed.

(** A failed lookup needs the debug log: on a manager whose [m_debug] is
    null, a lookup that no bundle answers cleanly calls [log] through the
    null pointer, whatever [activated] says. *)
Theorem failed_lookup_needs_debug_log this w :
  AssetManager.m_debug this = None →
  let l := AssetManager.m_bundleList this in
  let h := heap w in
  (∀ token custom,
     Forall (fails h (AssetBundle.loadImage token custom)) l →
     AssetManager.loadImage toString this token custom w = Crash NullDebugLog)
  ∧ (∀ token character,
       Forall (fails h (AssetBundle.loadCharImage token character)) l →
       AssetManager.loadImage_character toString this token character w
       = Crash NullDebugLog)
  ∧ (∀ token custom,
       Forall (errors h (AssetBundle.loadSound token custom)) l →
       AssetManager.loadSound toString this token custom w = Crash NullDebugLog)
  ∧ (∀ token character,
       Forall (errors h (AssetBundle.loadCharSound token character)) l →
       AssetManager.loadSound_character toString this token character w
       = Crash NullDebugLog)
  ∧ (∀ character,
       Forall (no_folder h (AssetBundle.getCharAnimationsFolder character)) l →
       AssetManager.getAnimationFolder_character this character w
       = Crash NullDebugLog)
  ∧ (∀ token script_name,
       Forall (no_folder h (AssetBundle.getAnimationFolder token script_name)) l →
       AssetManager.getAnimationFolder toString this token script_name w
       = Crash NullDebugLog).
Proof.
  intros Hd l h.
  split; [|split; [|split; [|split; [|split]]]].
  - intros token custom Hl. unfold AssetManager.loadImage.
    erewrite finish_lookup; [|by apply image_loop_all_fail].
    by rewrite last_answer_fails, Hd.
  - intros token character Hl. unfold AssetManager.loadImage_character.
    erewrite finish_lookup; [|by apply image_loop_all_fail].
    by rewrite last_answer_fails, Hd.
  - intros token custom Hl. unfold AssetManager.loadSound.
    erewrite finish_lookup; [|by apply sound_loop_all_error].
    by rewrite Hd.
  - intros token character Hl. unfold AssetManager.loadSound_character.
    erewrite finish_lookup; [|by apply sound_loop_all_error].
    by rewrite Hd.
  - intros character Hl. unfold AssetManager.getAnimationFolder_character.
    erewrite finish_lookup; [|by apply folder_loop_none].
    by rewrite Hd.
  - intros token script_name Hl. unfold AssetManager.getAnimationFolder.
    erewrite finish_lookup; [|by apply folder_loop_none].
    by rewrite Hd.
Qed.

Lemma lookup_loop_dead {T} c (f : AssetBundle.t S → T) stop otherwise target
    pre p post w :
  Forall (λ p, ∃ r, answer (heap w) f p = Some r
                    ∧ ∀ w', stop r w' = Done false w') pre →
  ¬ live (heap w) p →
  AssetManager.lookup_loop (λ p, query p c f) stop otherwise target
    (pre ++ p :: post) w
  = Crash InvalidBundle.
Proof.
  intros Hpre Hp. rewrite lookup_loop_rejected by done.
  simpl. apply bind_crash. by apply query_dead.
Qed.

(** The registry is trusted: a lookup that reaches an entry which is null
    or points to a destroyed bundle, before any bundle gave a clean answer,
    calls a method through that pointer. *)
Theorem lookup_reaching_dead_bundle_crashes this pre p post w :
  AssetManager.m_bundleList this = pre ++ p :: post →
  ¬ live (heap w) p →
  let h := heap w in
  (∀ token custom,
     Forall (fails h (AssetBundle.loadImage token custom)) pre →
     AssetManager.loadImage toString this token custom w = Crash InvalidBundle)
  ∧ (∀ token character,
       Forall (fails h (AssetBundle.loadCharImage token character)) pre →
       AssetManager.loadImage_character toString this token character w
       = Crash InvalidBundle)
  ∧ (∀ token custom,
       Forall (errors h (AssetBundle.loadSound token custom)) pre →
       AssetManager.loadSound toString this token custom w = Crash InvalidBundle)
  ∧ (∀ token character,
       Forall (errors h (AssetBundle.loadCharSound token character)) pre →
       AssetManager.loadSound_character toString this token character w
       = Crash InvalidBundle)
  ∧ (∀ character,
       Forall (no_folder h (AssetBundle.getCharAnimationsFolder character)) pre →
       AssetManager.getAnimationFolder_character this character w
       = Crash InvalidBundle)
  ∧ (∀ token script_name,
       Forall (no_folder h (AssetBundle.getAnimationFolder token script_name))
         pre →
       AssetManager.getAnimationFolder toString this token script_name w
       = Crash InvalidBundle).
Proof.
  intros Hl Hp h.
  split; [|split; [|split; [|split; [|split]]]].
  - intros token custom Hpre. unfold AssetManager.loadImage.
    apply finish_lookup_crash. rewrite Hl.
    apply lookup_loop_dead; [by apply fails_rejected|done].
  - intros token character Hpre. unfold AssetManager.loadImage_character.
    apply finish_lookup_crash. rewrite Hl.
    apply lookup_loop_dead; [by apply fails_rejected|done].
  - intros token custom Hpre. unfold AssetManager.loadSound.
    apply finish_lookup_crash. rewrite Hl.
    apply lookup_loop_dead; [by apply errors_rejected|done].
  - intros token character Hpre. unfold AssetManager.loadSound_character.
    apply finish_lookup_crash. rewrite Hl.
    apply lookup_loop_dead; [by apply errors_rejected|done].
  - intros character Hpre. unfold AssetManager.getAnimationFolder_character.
    apply finish_lookup_crash. rewrite Hl.
    apply lookup_loop_dead; [by apply no_folder_rejected|done].
  - intros token script_name Hpre. unfold AssetManager.getAnimationFolder.
    apply finish_lookup_crash. rewrite Hl.
    apply lookup_loop_dead; [by apply no_folder_rejected|done].
Qed.

End LookupOutcome.

(** ** The registry across operations *)

Section RegistryInvariant.
Context {S : Type} `{!AssetBundle.Impl S}.
Implicit Types (w : World S) (h : gmap positive (AssetBundle.t S)).
Implicit Types (p : ptr) (a : positive) (b : AssetBundle.t S).
Implicit Types (this : AssetManager.t) (l : list ptr).

Lemma live_delete_ne h a p : p ≠ Some a → live h p → live (delete a h) p.
Proof.
  intros Hne (x & bx & -> & Hx)%live_inv. unfold live. simpl.
  rewrite lookup_delete_ne by congruence. by eexists.
Qed.

Lemma unloadAll_run this w :
  Forall (live (heap w)) (AssetManager.m_bundleList this) →
  AssetManager.unloadAll this w
  = Done (bool_decide (AssetManager.m_bundleList this = []),
          AssetManager.set_bundleList
            (filter (λ p, is_active (heap w) p) (AssetManager.m_bundleList this))
            this) w.
Proof.
  intros Hl. unfold AssetManager.unloadAll.
  destruct this as [l fe dbg act]; simpl in *.
  destruct l as [|i rest]; [done|].
  by erewrite bind_done; [|by apply unloadAll_loop_filter].
Qed.

(** What [clone] leaves of the source: every bundle of the source registry
    is where it was, and the new registry is live. *)
Lemma clone_preserves_source default_priority this w :
  Forall (live (heap w)) (AssetManager.m_bundleList this) →
  ∃ current w',
    AssetManager.clone default_priority this w = Done current w'
    ∧ Forall (live (heap w')) (AssetManager.m_bundleList current)
    ∧ (∀ p, p ∈ AssetManager.m_bundleList this →
         peek (heap w') p = peek (heap w) p)
    ∧ AssetManager.m_debug current = AssetManager.m_debug this.
Proof.
  intros Hl.
  destruct (clone_loop_run default_priority AssetManager.default _ _ Hl)
    as (copies & w1 & Hrun & _ & Hnd & Hfresh & Hin & Hout).
  simpl in Hrun.
  set (registry := (Some <$> (filter (λ ac, AssetBundle.valid ac.2) copies).*1
                    : list ptr)) in *.
  assert (Hreg : Forall (live (heap w1)) registry).
  { apply Forall_forall. intros p Hp.
    apply list_elem_of_fmap in Hp as (a & -> & Ha).
    assert (Hmem : Some a ∈ registry) by (by apply list_elem_of_fmap_2).
    apply copies_registry_elem in Hmem as (c & Hc & _).
    exists c. simpl. by apply Hin. }
  eexists _, _. split; [|split; [|split]].
  - unfold AssetManager.clone. rewrite (bind_done _ _ _ _ _ Hrun).
    by apply activate_run.
  - simpl. eapply Forall_impl; [exact Hreg|].
    intros p. apply update_live_reloaded.
  - intros p Hp.
    destruct (live_inv _ _ (proj1 (Forall_forall _ _) Hl p Hp))
      as (x & bx & -> & Hx).
    assert (Hxc : x ∉ copies.*1).
    { intros Hmem. specialize (Hfresh _ Hmem). congruence. }
    simpl. rewrite reloaded_lookup by (by apply copies_registry_NoDup).
    rewrite decide_False; [by apply Hout|].
    intros (c & Hc & _)%copies_registry_elem.
    apply Hxc. apply list_elem_of_fmap. by exists (x, c).
  - done.
Qed.

(** No operation of the manager leaves a dangling pointer in its own
    registry: if every registry entry points to a live bundle, the same
    holds after [loadBundle] and [deleteBundle] of a live bundle, after
    [unloadAll] and [activate], and for both managers after [clone]. *)
Theorem registry_stays_live this w :
  Forall (live (heap w)) (AssetManager.m_bundleList this) →
  (∀ a priority, live (heap w) (Some a) →
     ∃ r this' w',
       AssetManager.loadBundle this (Some a) priority w = Done (r, this') w'
       ∧ Forall (live (heap w')) (AssetManager.m_bundleList this'))
  ∧ (∀ a, live (heap w) (Some a) →
       ∃ r this' w',
         AssetManager.deleteBundle this (Some a) w = Done (r, this') w'
         ∧ Forall (live (heap w')) (AssetManager.m_bundleList this'))
  ∧ (∃ r this' w',
       AssetManager.unloadAll this w = Done (r, this') w'
       ∧ Forall (live (heap w')) (AssetManager.m_bundleList this'))
  ∧ (∀ fe debug,
       ∃ this' w',
         AssetManager.activate this fe debug w = Done this' w'
         ∧ Forall (live (heap w')) (AssetManager.m_bundleList this'))
  ∧ (∀ default_priority,
       ∃ current w',
         AssetManager.clone default_priority this w = Done current w'
         ∧ Forall (live (heap w')) (AssetManager.m_bundleList current)
         ∧ Forall (live (heap w')) (AssetManager.m_bundleList this)).
Proof.
  intros Hl. split; [|split; [|split; [|split]]].
  - intros a priority [b Hb]. simpl in Hb.
    eexists _, _, _. split; [by apply loadBundle_run|].
    simpl.
    assert (Hl' : Forall (live (<[a := inserted (AssetManager.m_front this)
                                        (AssetManager.m_debug this) b]> (heap w)))
                    (AssetManager.m_bundleList this)).
    { eapply Forall_impl; [exact Hl|]. intros q. apply live_insert. }
    destruct (AssetBundle.valid _); [|exact Hl'].
    simpl. apply Forall_app. split; [exact Hl'|].
    apply Forall_cons. split; [|by constructor].
    unfold live. simpl. rewrite lookup_insert_eq. by eexists.
  - intros a Ha. eexists _, _, _. split; [by apply deleteBundle_run|].
    simpl. apply Forall_forall. intros q [Hne Hq]%list_elem_of_filter.
    apply live_delete_ne; [done|].
    by apply (proj1 (Forall_forall _ _) Hl).
  - eexists _, _, _. split; [by apply unloadAll_run|].
    simpl. apply Forall_forall. intros q [_ Hq]%list_elem_of_filter.
    by apply (proj1 (Forall_forall _ _) Hl).
  - intros fe debug. eexists _, _. split; [by apply activate_run|].
    simpl. eapply Forall_impl; [exact Hl|].
    intros q. apply update_live_reloaded.
  - intros default_priority.
    destruct (clone_preserves_source default_priority this w Hl)
      as (current & w' & Hrun & Hcur & Hsame & _).
    exists current, w'. split; [done|]. split; [done|].
    apply Forall_forall. intros q Hq. unfold live. rewrite Hsame by done.
    by apply (proj1 (Forall_forall _ _) Hl).
Qed.

(** Bundles are tried in the order they were loaded: after two
    [loadBundle] calls on different bundles the registry is the old one,
    followed by the first bundle if it was valid, followed by the second
    if it was valid, whatever the two priorities. *)
Theorem loadBundle_twice_keeps_call_order this a1 b1 a2 b2 priority1 priority2 w :
  heap w !! a1 = Some b1 →
  heap w !! a2 = Some b2 →
  a1 ≠ a2 →
  let fe := AssetManager.m_front this in
  let dbg := AssetManager.m_debug this in
  let r1 := AssetBundle.valid (inserted fe dbg b1) in
  let r2 := AssetBundle.valid (inserted fe dbg b2) in
  ∃ this1 w1 this2 w2,
    AssetManager.loadBundle this (Some a1) priority1 w = Done (r1, this1) w1
    ∧ AssetManager.loadBundle this1 (Some a2) priority2 w1 = Done (r2, this2) w2
    ∧ AssetManager.m_bundleList this2
      = AssetManager.m_bundleList this
        ++ (if r1 then [Some a1] else []) ++ (if r2 then [Some a2] else []).
Proof.
  intros Hb1 Hb2 Hne fe dbg r1 r2.
  set (this1 := if r1
                then AssetManager.set_bundleList
                       (AssetManager.m_bundleList this ++ [Some a1]) this
                else this).
  set (w1 := mkWorld (<[a1 := inserted fe dbg b1]> (heap w))
               (trace w ++ [EvCall a1 (CInit fe); EvCall a1 CReload])).
  assert (Hfe : AssetManager.m_front this1 = fe) by (unfold this1; by destruct r1).
  assert (Hdbg : AssetManager.m_debug this1 = dbg)
    by (unfold this1; by destruct r1).
  assert (Hb2' : heap w1 !! a2 = Some b2).
  { simpl. by rewrite lookup_insert_ne. }
  pose proof (loadBundle_run this1 a2 b2 priority2 w1 Hb2') as Hrun2.
  cbv zeta in Hrun2. rewrite Hfe, Hdbg in Hrun2. fold r2 in Hrun2.
  exists this1, w1. eexists _, _.
  split; [by apply loadBundle_run|]. split; [exact Hrun2|].
  unfold this1. destruct r1, r2; simpl; by rewrite <- ?app_assoc, ?app_nil_r.
Qed.

Lemma filter_ne_absent p l : p ∉ l → filter (λ q, q ≠ p) l = l.
Proof.
  induction l as [|q l IH]; intros Hp; [done|].
  apply not_elem_of_cons in Hp as [Hne Hp].
  rewrite filter_cons, decide_True by done. by rewrite IH.
Qed.

Lemma filter_ne_snoc p l : p ∉ l → filter (λ q, q ≠ p) (l ++ [p]) = l.
Proof.
  intros Hp. rewrite filter_app, filter_ne_absent by done.
  rewrite filter_cons, decide_False by (by intros []).
  by rewrite filter_nil, app_nil_r.
Qed.

(** Loading a bundle that is not yet registered and deleting it again
    gives back the manager as it was, whether or not the bundle turned out
    valid; the bundle is destroyed and no other bundle is touched. *)
Theorem loadBundle_then_deleteBundle this a b priority w :
  heap w !! a = Some b →
  Some a ∉ AssetManager.m_bundleList this →
  ∃ r this1 w1 w2,
    AssetManager.loadBundle this (Some a) priority w = Done (r, this1) w1
    ∧ AssetManager.deleteBundle this1 (Some a) w1 = Done (false, this) w2
    ∧ heap w2 = delete a (heap w).
Proof.
  intros Hb Ha.
  eexists _, _, _, _. split; [by apply loadBundle_run|]. split.
  - rewrite deleteBundle_run
      by (unfold live; simpl; rewrite lookup_insert_eq; by eexists).
    f_equal. f_equal. destruct this as [l fe dbg act]. simpl in *.
    destruct (AssetBundle.valid _); unfold AssetManager.set_bundleList; simpl.
    + by rewrite filter_ne_snoc.
    + by rewrite filter_ne_absent.
  - simpl. apply delete_insert_eq.
Qed.

(** After [unloadAll] every registry entry is active, so running it again
    removes nothing; the second call returns true exactly when the first
    one emptied the registry. *)
Theorem unloadAll_twice this w :
  Forall (live (heap w)) (AssetManager.m_bundleList this) →
  ∃ r this',
    AssetManager.unloadAll this w = Done (r, this') w
    ∧ Forall (λ p, is_active (heap w) p = true) (AssetManager.m_bundleList this')
    ∧ AssetManager.unloadAll this' w
      = Done (bool_decide (AssetManager.m_bundleList this' = []), this') w.
Proof.
  intros Hl. eexists _, _. split; [by apply unloadAll_run|].
  set (l' := filter (λ p, is_active (heap w) p) (AssetManager.m_bundleList this)).
  assert (Hact : Forall (λ p, is_active (heap w) p = true) l').
  { apply Forall_forall. intros q [Hq _]%list_elem_of_filter.
    by apply Is_true_eq_true. }
  split; [exact Hact|].
  rewrite unloadAll_run.
  - simpl. fold l'. f_equal. f_equal.
    unfold AssetManager.set_bundleList. simpl. f_equal.
    clear -Hact. induction l' as [|q l' IH]; [done|].
    apply Forall_cons in Hact as [Hq Hact].
    rewrite filter_cons, decide_True by (by rewrite Hq). by rewrite IH.
  - simpl. apply Forall_forall. intros q [_ Hq]%list_elem_of_filter.
    by apply (proj1 (Forall_forall _ _) Hl).
Qed.

(** Once [deleteBundle] has destroyed a bundle, the pointer is dead for
    every manager: deleting it again, loading it again, or pruning or
    reloading a registry that still lists it first, all go through the
    dangling pointer. *)
Theorem deleted_bundle_is_gone this a w :
  live (heap w) (Some a) →
  ∃ this' w',
    AssetManager.deleteBundle this (Some a) w = Done (false, this') w'
    ∧ ∀ that,
        AssetManager.deleteBundle that (Some a) w' = Crash InvalidBundle
        ∧ (∀ priority,
             AssetManager.loadBundle that (Some a) priority w'
             = Crash InvalidBundle)
        ∧ (∀ rest, AssetManager.m_bundleList that = Some a :: rest →
             AssetManager.unloadAll that w' = Crash InvalidBundle
             ∧ AssetManager.reloadBundles that w' = Crash InvalidBundle).
Proof.
  intros Hlive. eexists _, _. split; [by apply deleteBundle_run|].
  set (w' := mkWorld (delete a (heap w)) (trace w)).
  assert (Hdead : heap w' !! a = None) by apply lookup_delete_eq.
  intros that. split; [|split].
  - unfold AssetManager.deleteBundle, bind, delete_ptr. by rewrite Hdead.
  - intros priority. unfold AssetManager.loadBundle, invoke.
    unfold bind at 1. unfold bind at 1. unfold deref. by rewrite Hdead.
  - intros rest Hrest. split.
    + unfold AssetManager.unloadAll. rewrite Hrest. simpl.
      unfold bind at 1. unfold bind at 1. unfold deref. by rewrite Hdead.
    + unfold AssetManager.reloadBundles. rewrite Hrest. simpl.
      unfold bind at 1. unfold bind at 1. unfold invoke, bind at 1.
      unfold deref. by rewrite Hdead.
Qed.

End RegistryInvariant.

(** ** Operations in sequence *)

Section Sequences.
Context {S : Type} `{!AssetBundle.Impl S}.
Variable toString : Z → string.
Implicit Types (w : World S) (h : gmap positive (AssetBundle.t S)).
Implicit Types (p : ptr) (a : positive) (b : AssetBundle.t S).
Implicit Types (this : AssetManager.t) (l : list ptr).

Lemma answer_insert_ne {T} h (f : AssetBundle.t S → T) a b p :
  p ≠ Some a → answer (<[a := b]> h) f p = answer h f p.
Proof.
  intros Hne. unfold answer. destruct p as [x|]; simpl; [|done].
  rewrite lookup_insert_ne; [done|congruence].
Qed.

Lemma Forall_answer_insert_ne {T} (P : option T → Prop) h
    (f : AssetBundle.t S → T) a b l :
  Some a ∉ l →
  Forall (λ p, P (answer h f p)) l →
  Forall (λ p, P (answer (<[a := b]> h) f p)) l.
Proof.
  intros Ha Hl. apply Forall_forall. intros p Hp.
  rewrite answer_insert_ne by (intros ->; done).
  by apply (proj1 (Forall_forall _ _) Hl).
Qed.

(** A bundle loaded later never takes over a request that an earlier
    bundle answers: if [k] is the first bundle with a clean answer, every
    lookup still returns [k]'s answer after another bundle was loaded. *)
Theorem later_bundle_does_not_shadow this pre k bk post a b priority w :
  AssetManager.m_bundleList this = pre ++ Some k :: post →
  heap w !! k = Some bk →
  heap w !! a = Some b →
  Some a ∉ pre →
  a ≠ k →
  ∃ r this' w',
    AssetManager.loadBundle this (Some a) priority w = Done (r, this') w'
    ∧ (∀ token custom,
         Forall (fails (heap w) (AssetBundle.loadImage token custom)) pre →
         AssetManager.loaded_ok (AssetBundle.loadImage token custom bk) = true →
         result_of (AssetManager.loadImage toString this' token custom w')
         = Some (AssetBundle.loadImage token custom bk))
    ∧ (∀ token character,
         Forall (fails (heap w) (AssetBundle.loadCharImage token character)) pre →
         AssetManager.loaded_ok (AssetBundle.loadCharImage token character bk)
         = true →
         result_of (AssetManager.loadImage_character toString this' token
                      character w')
         = Some (AssetBundle.loadCharImage token character bk))
    ∧ (∀ token custom,
         Forall (errors (heap w) (AssetBundle.loadSound token custom)) pre →
         AssetManager.loaded_ok (AssetBundle.loadSound token custom bk) = true →
         result_of (AssetManager.loadSound toString this' token custom w')
         = Some (AssetBundle.loadSound token custom bk))
    ∧ (∀ token character,
         Forall (errors (heap w) (AssetBundle.loadCharSound token character)) pre →
         AssetManager.loaded_ok (AssetBundle.loadCharSound token character bk)
         = true →
         result_of (AssetManager.loadSound_character toString this' token
                      character w')
         = Some (AssetBundle.loadCharSound token character bk))
    ∧ (∀ character,
         Forall (no_folder (heap w)
                   (AssetBundle.getCharAnimationsFolder character)) pre →
         empty_string (AssetBundle.getCharAnimationsFolder character bk) = false →
         result_of (AssetManager.getAnimationFolder_character this' character w')
         = Some (AssetBundle.getCharAnimationsFolder character bk))
    ∧ (∀ token script_name,
         Forall (no_folder (heap w)
                   (AssetBundle.getAnimationFolder token script_name)) pre →
         empty_string (AssetBundle.getAnimationFolder token script_name bk)
         = false →
         result_of (AssetManager.getAnimationFolder toString this' token
                      script_name w')
         = Some (AssetBundle.getAnimationFolder token script_name bk)).
Proof.
  intros Hl Hk Hb Ha Hne.
  set (b' := inserted (AssetManager.m_front this) (AssetManager.m_debug this) b).
  set (this' := if AssetBundle.valid b'
                then AssetManager.set_bundleList
                       (AssetManager.m_bundleList this ++ [Some a]) this
                else this).
  set (w' := mkWorld (<[a := b']> (heap w))
               (trace w ++ [EvCall a (CInit (AssetManager.m_front this));
                            EvCall a CReload])).
  assert (Hl' : ∃ post', AssetManager.m_bundleList this' = pre ++ Some k :: post').
  { unfold this'. destruct (AssetBundle.valid b'); simpl.
    - exists (post ++ [Some a]). rewrite Hl. by rewrite <- app_assoc.
    - by exists post. }
  destruct Hl' as [post' Hl'].
  assert (Hk' : heap w' !! k = Some bk).
  { simpl. by rewrite lookup_insert_ne. }
  exists (AssetBundle.valid b'), this', w'.
  split; [by apply loadBundle_run|].
  split; [|split; [|split; [|split; [|split]]]].
  - intros token custom Hpre Hok.
    erewrite loadImage_first_clean; [done|exact Hl'| |exact Hk'|exact Hok].
    by apply (Forall_answer_insert_ne
                (λ o, ∃ r, o = Some r ∧ AssetManager.loaded_ok r = false)).
  - intros token character Hpre Hok.
    erewrite loadImage_character_first_clean;
      [done|exact Hl'| |exact Hk'|exact Hok].
    by apply (Forall_answer_insert_ne
                (λ o, ∃ r, o = Some r ∧ AssetManager.loaded_ok r = false)).
  - intros token custom Hpre Hok.
    erewrite loadSound_first_clean; [done|exact Hl'| |exact Hk'|exact Hok].
    by apply (Forall_answer_insert_ne
                (λ o, ∃ s, o = Some (Some s) ∧ error s = true)).
  - intros token character Hpre Hok.
    erewrite loadSound_character_first_clean;
      [done|exact Hl'| |exact Hk'|exact Hok].
    by apply (Forall_answer_insert_ne
                (λ o, ∃ s, o = Some (Some s) ∧ error s = true)).
  - intros character Hpre Hok.
    erewrite getAnimationFolder_character_first_found;
      [done|exact Hl'| |exact Hk'|exact Hok].
    by apply (Forall_answer_insert_ne
                (λ o, ∃ r, o = Some r ∧ empty_string r = true)).
  - intros token script_name Hpre Hok.
    erewrite getAnimationFolder_first_found;
      [done|exact Hl'| |exact Hk'|exact Hok].
    by apply (Forall_answer_insert_ne
                (λ o, ∃ r, o = Some r ∧ empty_string r = true)).
Qed.

Lemma list_loop_after_prune c (f : AssetBundle.t S → gset string) l w :
  Forall (live (heap w)) l →
  ∃ result w',
    AssetManager.list_loop (λ p, query p c f) ∅
      (filter (λ p, is_active (heap w) p) l) w
    = Done result w'
    ∧ ∀ x, x ∈ result ↔ listed_active (heap w) f l x.
Proof.
  intros Hl.
  assert (Hl' : Forall (live (heap w)) (filter (λ p, is_active (heap w) p) l)).
  { apply Forall_forall. intros q [_ Hq]%list_elem_of_filter.
    by apply (proj1 (Forall_forall _ _) Hl). }
  destruct (list_loop_run c f ∅ _ w Hl') as (result & Hrun & Hmem).
  exists result. eexists. split; [exact Hrun|].
  intros x. rewrite Hmem. unfold listed, listed_active. split.
  - intros [Hx|(p & b & Hp & Hb & Hx)]; [by apply elem_of_empty in Hx|].
    apply list_elem_of_filter in Hp as [Hact Hp].
    exists p, b. repeat split; try done.
    unfold is_active in Hact. rewrite Hb in Hact. by apply Is_true_eq_true.
  - intros (p & b & Hp & Hb & Hact & Hx). right. exists p, b.
    split; [|done]. apply list_elem_of_filter. split; [|done].
    unfold is_active. rewrite Hb. by rewrite Hact.
Qed.

(** After [unloadAll] the enumeration queries no longer see the
    tombstoned bundles: a name is listed exactly when an active bundle of
    the old registry lists it. *)
Theorem enumeration_after_unloadAll this w :
  Forall (live (heap w)) (AssetManager.m_bundleList this) →
  ∃ r this',
    AssetManager.unloadAll this w = Done (r, this') w
    ∧ (∃ result w',
         AssetManager.listPuyoSkins this' w = Done result w'
         ∧ ∀ x, x ∈ result
                ↔ listed_active (heap w) AssetBundle.listPuyoSkins
                    (AssetManager.m_bundleList this) x)
    ∧ (∃ result w',
         AssetManager.listBackgrounds this' w = Done result w'
         ∧ ∀ x, x ∈ result
                ↔ listed_active (heap w) AssetBundle.listBackgrounds
                    (AssetManager.m_bundleList this) x)
    ∧ (∃ result w',
         AssetManager.listCharacterSkins this' w = Done result w'
         ∧ ∀ x, x ∈ result
                ↔ listed_active (heap w) AssetBundle.listCharacterSkins
                    (AssetManager.m_bundleList this) x)
    ∧ (∃ result w',
         AssetManager.listSfx this' w = Done result w'
         ∧ ∀ x, x ∈ result
                ↔ listed_active (heap w) AssetBundle.listSfx
                    (AssetManager.m_bundleList this) x).
Proof.
  intros Hl. eexists _, _. split; [by apply unloadAll_run|].
  repeat split; by apply list_loop_after_prune.
Qed.


Lemma construct_run fe dbg w :
  AssetManager.construct fe dbg w
  = Done (AssetManager.mk [] fe dbg (AssetManager.activated AssetManager.default))
      (mkWorld (heap w) (trace w ++ construct_entry dbg))
  ∧ AssetManager.m_bundleList
      (AssetManager.mk [] fe dbg (AssetManager.activated AssetManager.default))
    = [].
Proof.
  split; [|done]. destruct dbg as [d|]; [done|].
  unfold AssetManager.construct, bind, ret. simpl.
  rewrite app_nil_r. by destruct w.
Qed.

Lemma destroy_run this w :
  AssetManager.destroy this w
  = Done tt (mkWorld (heap w) (trace w ++ destroy_entry (AssetManager.m_debug this))).
Proof.
  unfold AssetManager.destroy, destroy_entry.
  destruct (AssetManager.m_debug this) as [d|]; [done|].
  unfold ret. rewrite app_nil_r. by destruct w.
Qed.

(** The life of a manager never frees a bundle: construct it, load a
    bundle, destroy it, and the bundle is still allocated, in the state the
    insertion left it in; no other object is touched.  Neither the
    constructor nor the destructor needs a debug log: each logs one [Debug]
    entry if there is one and nothing otherwise. *)
Theorem manager_lifetime_keeps_bundles fe dbg a b priority w :
  heap w !! a = Some b →
  ∃ this w1 r this' w2 w3,
    AssetManager.construct fe dbg w = Done this w1
    ∧ AssetManager.loadBundle this (Some a) priority w1 = Done (r, this') w2
    ∧ AssetManager.destroy this' w2 = Done tt w3
    ∧ heap w3 !! a = Some (inserted fe dbg b)
    ∧ (∀ x, x ≠ a → heap w3 !! x = heap w !! x)
    ∧ logs (trace w3)
      = logs (trace w)
        ++ match dbg with
           | Some d => [(d, "Asset manager loaded", Debug);
                        (d, "Asset manager destroyed", Debug)]
           | None => []
           end.
Proof.
  intros Hb.
  set (this := AssetManager.mk [] fe dbg
                 (AssetManager.activated AssetManager.default)).
  set (b' := inserted fe dbg b).
  set (this' := if AssetBundle.valid b'
                then AssetManager.set_bundleList [Some a] this else this).
  assert (Hdbg : AssetManager.m_debug this' = dbg).
  { unfold this'. by destruct (AssetBundle.valid b'). }
  destruct (construct_run fe dbg w) as [Hnew _].
  set (w1 := mkWorld (heap w) (trace w ++ construct_entry dbg)) in *.
  pose proof (loadBundle_run this a b priority w1 Hb) as Hload.
  cbv zeta in Hload. fold b' this' in Hload.
  exists this, w1. eexists _, this', _, _.
  split; [exact Hnew|]. split; [exact Hload|].
  split; [apply destroy_run|]. split; [|split].
  - simpl. apply lookup_insert_eq.
  - intros x Hx. simpl. by rewrite lookup_insert_ne.
  - simpl. rewrite Hdbg, !logs_app.
    destruct dbg as [d|]; simpl; by rewrite <- ?app_assoc, ?app_nil_r.
Qed.

(** What a lookup returns depends on the bundles of the registry only. *)
Lemma lookup_loop_frame {T} c (f : AssetBundle.t S → T) stop otherwise
    target l w1 w2 :
  (∀ p, p ∈ l → peek (heap w1) p = peek (heap w2) p) →
  (∀ t, (∃ found, ∀ w, stop t w = Done found w) ∨ (∃ e, ∀ w, stop t w = Crash e)) →
  result_of (AssetManager.lookup_loop (λ p, query p c f) stop otherwise
               target l w1)
  = result_of (AssetManager.lookup_loop (λ p, query p c f) stop otherwise
                 target l w2).
Proof.
  intros Hsame Hstop. revert target w1 w2 Hsame.
  induction l as [|p l IH]; intros target w1 w2 Hsame; [done|].
  simpl AssetManager.lookup_loop.
  assert (Hp := Hsame p (list_elem_of_here _ _)).
  destruct (peek (heap w2) p) as [b|] eqn:Hp2.
  - destruct p as [a|]; [simpl in Hp, Hp2|done].
    rewrite (bind_done _ _ _ _ _ (query_live _ _ c f _ Hp)).
    rewrite (bind_done _ _ _ _ _ (query_live _ _ c f _ Hp2)).
    destruct (Hstop (f b)) as [[found Hfound]|[e He]].
    + rewrite !(bind_done _ _ _ _ _ (Hfound _)).
      destruct found; [done|]. apply IH. simpl.
      intros q Hq. by apply Hsame, list_elem_of_further.
    + by rewrite !(bind_crash _ _ _ _ (He _)).
  - rewrite !(bind_crash _ _ _ InvalidBundle); [done| |].
    + apply query_dead. unfold live. rewrite ?Hp, ?Hp2. by intros [].
    + apply query_dead. unfold live. rewrite ?Hp, ?Hp2. by intros [].
Qed.

Lemma lookup_tail_frame {T} (loop : M S T) (flag : T → bool) dbg msg w1 w2 :
  result_of (loop w1) = result_of (loop w2) →
  result_of ((let* target := loop in
              (if flag target then log dbg msg Error else ret tt)
              >> ret target) w1)
  = result_of ((let* target := loop in
                (if flag target then log dbg msg Error else ret tt)
                >> ret target) w2).
Proof.
  destruct (loop w1) as [t1 w1'|e1] eqn:H1;
    destruct (loop w2) as [t2 w2'|e2] eqn:H2; simpl; try done.
  - intros [= ->].
    rewrite (finish_lookup _ _ _ _ _ _ _ H1), (finish_lookup _ _ _ _ _ _ _ H2).
    destruct (flag t2); [destruct dbg|]; done.
  - intros _.
    by rewrite (finish_lookup_crash _ _ _ _ _ _ H1),
      (finish_lookup_crash _ _ _ _ _ _ H2).
Qed.

Lemma pure_stop_uniform {T} (ok : T → bool) (t : T) :
  (∃ found, ∀ w : World S, ret (ok t) w = Done found w)
  ∨ (∃ e, ∀ w : World S, ret (ok t) w = Crash e).
Proof. left. by exists (ok t). Qed.

Lemma sound_stop_uniform (t : option FeSound) :
  (∃ found, ∀ w : World S,
     (let* e := handle_error t in ret (negb e)) w = Done found w)
  ∨ (∃ e, ∀ w : World S,
       (let* e := handle_error t in ret (negb e)) w = Crash e).
Proof.
  destruct t as [s|].
  - left. by exists (negb (error s)).
  - right. by exists NullHandle.
Qed.

(** Cloning does not disturb the source: every lookup on the source
    manager returns after [clone] what it returned before. *)
Theorem clone_leaves_source_lookups default_priority this w :
  Forall (live (heap w)) (AssetManager.m_bundleList this) →
  ∃ current w',
    AssetManager.clone default_priority this w = Done current w'
    ∧ (∀ token custom,
         result_of (AssetManager.loadImage toString this token custom w')
         = result_of (AssetManager.loadImage toString this token custom w))
    ∧ (∀ token character,
         result_of (AssetManager.loadImage_character toString this token
                      character w')
         = result_of (AssetManager.loadImage_character toString this token
                        character w))
    ∧ (∀ token custom,
         result_of (AssetManager.loadSound toString this token custom w')
         = result_of (AssetManager.loadSound toString this token custom w))
    ∧ (∀ token character,
         result_of (AssetManager.loadSound_character toString this token
                      character w')
         = result_of (AssetManager.loadSound_character toString this token
                        character w))
    ∧ (∀ character,
         result_of (AssetManager.getAnimationFolder_character this character w')
         = result_of (AssetManager.getAnimationFolder_character this character w))
    ∧ (∀ token script_name,
         result_of (AssetManager.getAnimationFolder toString this token
                      script_name w')
         = result_of (AssetManager.getAnimationFolder toString this token
                        script_name w)).
Proof.
  intros Hl.
  destruct (clone_preserves_source default_priority this w Hl)
    as (current & w' & Hrun & _ & Hsame & _).
  exists current, w'. split; [exact Hrun|].
  split; [|split; [|split; [|split; [|split]]]]; intros;
    apply lookup_tail_frame, lookup_loop_frame;
    solve [exact Hsame
          |intros t; apply pure_stop_uniform
          |intros t; apply sound_stop_uniform].
Qed.

End Sequences.

(** ** Further runs on concrete registries *)

Section MoreExamples.
Import Pack.

(** A third address, which no heap below allocates, and a fourth one. *)
Let C : positive := 9%positive.
Let D : positive := 3%positive.

(** The image of [B] is found behind the errored one of [A]; the dangling
    entry [C] and the missing debug log do no harm. *)
Lemma image_lookup_first_clean_wins_witness :
  let this := unbound_manager [Some A; Some B; Some C] in
  let w := world [(A, broken); (B, full)] in
  AssetManager.m_bundleList this = [Some A] ++ Some B :: [Some C]
  ∧ Forall (fails (heap w) (AssetBundle.loadImage 3 "fireball")) [Some A]
  ∧ heap w !! B = Some (bundle full)
  ∧ AssetManager.loadImage to_string this 3 "fireball" w
    = Done (Some good_image)
        (mkWorld (heap w)
           [EvCall A (CLoadImage 3 "fireball"); EvCall B (CLoadImage 3 "fireball")]).
Proof.
  intros this w.
  assert (Hpre : Forall (fails (heap w) (AssetBundle.loadImage 3 "fireball"))
                   [Some A]) by all_rejected.
  split; [reflexivity|]. split; [exact Hpre|]. split; [reflexivity|].
  destruct (image_lookup_first_clean_wins to_string this [Some A] B [Some C] w
              eq_refl) as [Hcustom _].
  exact (Hcustom 3%Z "fireball" (bundle full) Hpre eq_refl eq_refl).
Defined.

(** The sound of [B] is found behind the errored one of [A]. *)
Lemma sound_lookup_first_clean_wins_witness :
  let this := unbound_manager [Some A; Some B; Some C] in
  let w := world [(A, broken); (B, full)] in
  AssetManager.m_bundleList this = [Some A] ++ Some B :: [Some C]
  ∧ Forall (errors (heap w) (AssetBundle.loadCharSound 4 7)) [Some A]
  ∧ heap w !! B = Some (bundle full)
  ∧ AssetManager.loadSound_character to_string this 4 7 w
    = Done (Some good_sound)
        (mkWorld (heap w)
           [EvCall A (CLoadCharSound 4 7); EvCall B (CLoadCharSound 4 7)]).
Proof.
  intros this w.
  assert (Hpre : Forall (errors (heap w) (AssetBundle.loadCharSound 4 7))
                   [Some A]) by all_rejected.
  split; [reflexivity|]. split; [exact Hpre|]. split; [reflexivity|].
  destruct (sound_lookup_first_clean_wins to_string this [Some A] B [Some C] w
              eq_refl) as [_ Hchar].
  exact (Hchar 4%Z 7%Z (bundle full) Hpre eq_refl eq_refl).
Defined.

(** The folder of [B] is found behind the empty answer of [A]. *)
Lemma folder_lookup_first_path_wins_witness :
  let this := unbound_manager [Some A; Some B; Some C] in
  let w := world [(A, broken); (B, full)] in
  AssetManager.m_bundleList this = [Some A] ++ Some B :: [Some C]
  ∧ Forall (no_folder (heap w) (AssetBundle.getCharAnimationsFolder 7)) [Some A]
  ∧ heap w !! B = Some (bundle full)
  ∧ AssetManager.getAnimationFolder_character this 7 w
    = Done "anim/arle"
        (mkWorld (heap w)
           [EvCall A (CGetCharAnimationsFolder 7);
            EvCall B (CGetCharAnimationsFolder 7)]).
Proof.
  intros this w.
  assert (Hpre : Forall (no_folder (heap w)
                           (AssetBundle.getCharAnimationsFolder 7)) [Some A])
    by all_rejected.
  split; [reflexivity|]. split; [exact Hpre|]. split; [reflexivity|].
  destruct (folder_lookup_first_path_wins to_string this [Some A] B [Some C] w
              eq_refl) as [Hchar _].
  exact (Hchar 7%Z (bundle full) Hpre eq_refl eq_refl).
Defined.

(** [A] has no image, [B] has one: the lookup returns a clean handle and
    logs nothing. *)
Lemma image_lookup_returns_witness :
  let this := manager [Some A; Some B] in
  let w := world [(A, silent); (B, full)] in
  Forall (live (heap w)) (AssetManager.m_bundleList this)
  ∧ AssetManager.m_debug this = Some 2%positive
  ∧ ∃ target tr,
      AssetManager.loadImage to_string this 3 "fireball" w
      = Done target (mkWorld (heap w) (trace w ++ tr))
      ∧ AssetManager.loaded_ok target = true
      ∧ logs tr = [].
Proof.
  intros this w.
  assert (Hl : Forall (live (heap w)) (AssetManager.m_bundleList this))
    by all_live.
  split; [exact Hl|]. split; [reflexivity|].
  destruct (image_lookup_returns to_string this 2%positive w Hl eq_refl)
    as [Hcustom _].
  destruct (Hcustom 3%Z "fireball") as (target & tr & Hrun & Hlogs & Hiff).
  assert (Hok : AssetManager.loaded_ok target = true).
  { apply Hiff. apply Exists_cons. right. apply Exists_cons. left.
    eexists. split; reflexivity. }
  exists target, tr. split; [exact Hrun|]. split; [exact Hok|].
  by rewrite Hok in Hlogs.
Defined.

(** No bundle has a folder: the lookup returns and logs once. *)
Lemma folder_lookup_returns_witness :
  let this := manager [Some A; Some B] in
  let w := world [(A, silent); (B, broken)] in
  Forall (live (heap w)) (AssetManager.m_bundleList this)
  ∧ AssetManager.m_debug this = Some 2%positive
  ∧ ∃ target tr,
      AssetManager.getAnimationFolder to_string this 5 "idle" w
      = Done target (mkWorld (heap w) (trace w ++ tr))
      ∧ logs tr = (if empty_string target
                   then [(2%positive, "Error loading animation script token 5",
                          Error)]
                   else []).
Proof.
  intros this w.
  assert (Hl : Forall (live (heap w)) (AssetManager.m_bundleList this))
    by all_live.
  split; [exact Hl|]. split; [reflexivity|].
  destruct (folder_lookup_returns to_string this 2%positive w Hl eq_refl)
    as [_ Htoken].
  destruct (Htoken 5%Z "idle") as (target & tr & Hrun & Hlogs & _).
  exists target, tr. split; [exact Hrun|exact Hlogs].
Defined.

(** Two bundles with errored sounds: the lookup returns, and what it
    returns is null. *)
Lemma sound_lookup_returns_witness :
  let this := manager [Some A; Some B] in
  let w := world [(A, broken); (B, broken)] in
  AssetManager.m_debug this = Some 2%positive
  ∧ Forall (non_null (heap w) (AssetBundle.loadSound 4 "win"))
      (AssetManager.m_bundleList this)
  ∧ ∃ target tr,
      AssetManager.loadSound to_string this 4 "win" w
      = Done target (mkWorld (heap w) (trace w ++ tr))
      ∧ (AssetManager.loaded_ok target = false → target = None).
Proof.
  intros this w.
  assert (Hl : Forall (non_null (heap w) (AssetBundle.loadSound 4 "win"))
                 (AssetManager.m_bundleList this)).
  { apply Forall_cons. split; [eexists; reflexivity|].
    apply Forall_cons. split; [eexists; reflexivity|]. by constructor. }
  split; [reflexivity|]. split; [exact Hl|].
  destruct (sound_lookup_returns to_string this 2%positive w eq_refl)
    as [Hcustom _].
  destruct (Hcustom 4%Z "win" Hl) as (target & tr & Hrun & _ & _ & Hnull).
  exists target, tr. split; [exact Hrun|exact Hnull].
Defined.

(** A failed image lookup on a manager without a debug log. *)
Lemma failed_lookup_needs_debug_log_witness :
  let this := unbound_manager [Some A] in
  let w := world [(A, broken)] in
  AssetManager.m_debug this = None
  ∧ Forall (fails (heap w) (AssetBundle.loadImage 3 "fireball"))
      (AssetManager.m_bundleList this)
  ∧ AssetManager.loadImage to_string this 3 "fireball" w = Crash NullDebugLog.
Proof.
  intros this w.
  assert (Hl : Forall (fails (heap w) (AssetBundle.loadImage 3 "fireball"))
                 (AssetManager.m_bundleList this)) by all_rejected.
  split; [reflexivity|]. split; [exact Hl|].
  destruct (failed_lookup_needs_debug_log to_string this w eq_refl)
    as [Hcustom _].
  exact (Hcustom 3%Z "fireball" Hl).
Defined.

(** The lookup passes [A] and runs into the entry [C], which points
    nowhere. *)
Lemma lookup_reaching_dead_bundle_crashes_witness :
  let this := manager [Some A; Some C; Some B] in
  let w := world [(A, broken); (B, full)] in
  AssetManager.m_bundleList this = [Some A] ++ Some C :: [Some B]
  ∧ heap w !! C = None
  ∧ Forall (fails (heap w) (AssetBundle.loadImage 3 "fireball")) [Some A]
  ∧ AssetManager.loadImage to_string this 3 "fireball" w = Crash InvalidBundle.
Proof.
  intros this w.
  assert (Hpre : Forall (fails (heap w) (AssetBundle.loadImage 3 "fireball"))
                   [Some A]) by all_rejected.
  assert (Hdead : ¬ live (heap w) (Some C)) by (intros [b Hb]; discriminate Hb).
  split; [reflexivity|]. split; [reflexivity|]. split; [exact Hpre|].
  destruct (lookup_reaching_dead_bundle_crashes to_string this [Some A] (Some C)
              [Some B] w eq_refl Hdead) as [Hcustom _].
  exact (Hcustom 3%Z "fireball" Hpre).
Defined.

(** Deleting [A], registered twice, leaves a registry of live bundles. *)
Lemma registry_stays_live_witness :
  let this := manager [Some A; Some B; Some A] in
  let w := world [(A, silent); (B, full)] in
  Forall (live (heap w)) (AssetManager.m_bundleList this)
  ∧ live (heap w) (Some A)
  ∧ ∃ r this' w',
      AssetManager.deleteBundle this (Some A) w = Done (r, this') w'
      ∧ Forall (live (heap w')) (AssetManager.m_bundleList this').
Proof.
  intros this w.
  assert (Hl : Forall (live (heap w)) (AssetManager.m_bundleList this))
    by all_live.
  assert (Ha : live (heap w) (Some A)) by (eexists; reflexivity).
  split; [exact Hl|]. split; [exact Ha|].
  destruct (registry_stays_live this w Hl) as (_ & Hdelete & _).
  exact (Hdelete A Ha).
Defined.

(** [A] does not survive [init] and stays out; [B] goes behind [D],
    whatever the priorities. *)
Lemma loadBundle_twice_keeps_call_order_witness :
  let this := manager [Some D] in
  let w := world [(A, unusable); (B, full); (D, silent)] in
  heap w !! A = Some (bundle unusable)
  ∧ heap w !! B = Some (bundle full)
  ∧ A ≠ B
  ∧ ∃ this1 w1 this2 w2,
      AssetManager.loadBundle this (Some A) 9 w = Done (false, this1) w1
      ∧ AssetManager.loadBundle this1 (Some B) 1 w1 = Done (true, this2) w2
      ∧ AssetManager.m_bundleList this2 = [Some D; Some B].
Proof.
  intros this w.
  assert (Hne : A ≠ B) by discriminate.
  split; [reflexivity|]. split; [reflexivity|]. split; [exact Hne|].
  exact (loadBundle_twice_keeps_call_order this A (bundle unusable) B
           (bundle full) 9 1 w eq_refl eq_refl Hne).
Defined.

(** Loading and deleting [B] gives back the manager on [[A]]. *)
Lemma loadBundle_then_deleteBundle_witness :
  let this := manager [Some A] in
  let w := world [(A, silent); (B, full)] in
  heap w !! B = Some (bundle full)
  ∧ (Some B ∉ AssetManager.m_bundleList this)
  ∧ ∃ r this1 w1 w2,
      AssetManager.loadBundle this (Some B) 0 w = Done (r, this1) w1
      ∧ AssetManager.deleteBundle this1 (Some B) w1 = Done (false, this) w2
      ∧ heap w2 = delete B (heap w).
Proof.
  intros this w.
  assert (Hnew : Some B ∉ AssetManager.m_bundleList this).
  { intros [=]%list_elem_of_singleton. }
  split; [reflexivity|]. split; [exact Hnew|].
  exact (loadBundle_then_deleteBundle this B (bundle full) 0 w eq_refl Hnew).
Defined.

(** Pruning the tombstone [B], then pruning again. *)
Lemma unloadAll_twice_witness :
  let this := manager [Some A; Some B] in
  let w := mkWorld (<[B := AssetBundle.mk true false None full]>
                      (heap (world [(A, silent)]))) [] in
  Forall (live (heap w)) (AssetManager.m_bundleList this)
  ∧ ∃ r this',
      AssetManager.unloadAll this w = Done (r, this') w
      ∧ AssetManager.unloadAll this' w
        = Done (bool_decide (AssetManager.m_bundleList this' = []), this') w.
Proof.
  intros this w.
  assert (Hl : Forall (live (heap w)) (AssetManager.m_bundleList this))
    by all_live.
  split; [exact Hl|].
  destruct (unloadAll_twice this w Hl) as (r & this' & Hrun & _ & Hagain).
  exists r, this'. by split.
Defined.

(** After [A] was deleted through one manager, deleting it again and
    reloading another manager that lists it both fail. *)
Lemma deleted_bundle_is_gone_witness :
  let this := manager [Some A; Some B] in
  let that := manager [Some A] in
  let w := world [(A, silent); (B, full)] in
  live (heap w) (Some A)
  ∧ ∃ this' w',
      AssetManager.deleteBundle this (Some A) w = Done (false, this') w'
      ∧ AssetManager.deleteBundle this' (Some A) w' = Crash InvalidBundle
      ∧ AssetManager.reloadBundles that w' = Crash InvalidBundle.
Proof.
  intros this that w.
  assert (Ha : live (heap w) (Some A)) by (eexists; reflexivity).
  split; [exact Ha|].
  destruct (deleted_bundle_is_gone this A w Ha) as (this' & w' & Hrun & Hgone).
  exists this', w'. split; [exact Hrun|]. split.
  - exact (proj1 (Hgone this')).
  - destruct (Hgone that) as (_ & _ & Hlisted).
    exact (proj2 (Hlisted [] eq_refl)).
Defined.

(** [D] brings an image of its own, but the lookup still returns the image
    of [B]. *)
Lemma later_bundle_does_not_shadow_witness :
  let this := manager [Some A; Some B] in
  let other := mk true (Some {| image_id := 11; image_error := false |})
                 None "anim/other" [] in
  let w := world [(A, silent); (B, full); (D, other)] in
  AssetManager.m_bundleList this = [Some A] ++ Some B :: []
  ∧ heap w !! B = Some (bundle full)
  ∧ heap w !! D = Some (bundle other)
  ∧ (Some D ∉ [Some A])
  ∧ D ≠ B
  ∧ Forall (fails (heap w) (AssetBundle.loadImage 3 "fireball")) [Some A]
  ∧ ∃ r this' w',
      AssetManager.loadBundle this (Some D) 100 w = Done (r, this') w'
      ∧ result_of (AssetManager.loadImage to_string this' 3 "fireball" w')
        = Some (Some good_image).
Proof.
  intros this other w.
  assert (Hnew : Some D ∉ [Some A]) by (intros [=]%list_elem_of_singleton).
  assert (Hne : D ≠ B) by discriminate.
  assert (Hpre : Forall (fails (heap w) (AssetBundle.loadImage 3 "fireball"))
                   [Some A]) by all_rejected.
  split; [reflexivity|]. split; [reflexivity|]. split; [reflexivity|].
  split; [exact Hnew|]. split; [exact Hne|]. split; [exact Hpre|].
  destruct (later_bundle_does_not_shadow to_string this [Some A] B (bundle full)
              [] D (bundle other) 100 w eq_refl eq_refl eq_refl Hnew Hne)
    as (r & this' & w' & Hrun & Himage & _).
  exists r, this', w'. split; [exact Hrun|].
  exact (Himage 3%Z "fireball" Hpre eq_refl).
Defined.

(** The names of the tombstone [B] are gone after pruning, those of [A]
    remain. *)
Lemma enumeration_after_unloadAll_witness :
  let this := manager [Some A; Some B] in
  let w := mkWorld (<[B := AssetBundle.mk true false None full]>
                      (heap (world [(A, broken)]))) [] in
  Forall (live (heap w)) (AssetManager.m_bundleList this)
  ∧ ∃ r this' result w',
      AssetManager.unloadAll this w = Done (r, this') w
      ∧ AssetManager.listPuyoSkins this' w = Done result w'
      ∧ "classic" ∈ result
      ∧ "arle" ∉ result.
Proof.
  intros this w.
  assert (Hl : Forall (live (heap w)) (AssetManager.m_bundleList this))
    by all_live.
  split; [exact Hl|].
  destruct (enumeration_after_unloadAll this w Hl)
    as (r & this' & Hrun & (result & w' & Hlist & Hmem) & _).
  exists r, this', result, w'. split; [exact Hrun|]. split; [exact Hlist|].
  assert (HA : peek (heap w) (Some A) = Some (bundle broken)) by reflexivity.
  assert (HB : peek (heap w) (Some B)
               = Some (AssetBundle.mk true false None full)) by reflexivity.
  split.
  - apply Hmem. exists (Some A), (bundle broken).
    split; [apply list_elem_of_here|]. split; [exact HA|].
    split; [reflexivity|]. by vm_compute.
  - intros (p & b & Hp & Hb & Hact & Hx)%Hmem.
    apply elem_of_cons in Hp as [->|Hp].
    + rewrite HA in Hb. injection Hb as <-. by vm_compute in Hx.
    + apply elem_of_cons in Hp as [->|Hp]; [|by apply elem_of_nil in Hp].
      rewrite HB in Hb. injection Hb as <-. discriminate Hact.
Defined.


(** Construct, load [A], destroy: [A] is still allocated, and the log has
    the two entries. *)
Lemma manager_lifetime_keeps_bundles_witness :
  let w := world [(A, full)] in
  heap w !! A = Some (bundle full)
  ∧ ∃ this w1 r this' w2 w3,
      AssetManager.construct (Some 1%positive) (Some 2%positive) w = Done this w1
      ∧ AssetManager.loadBundle this (Some A) 0 w1 = Done (r, this') w2
      ∧ AssetManager.destroy this' w2 = Done tt w3
      ∧ is_Some (heap w3 !! A)
      ∧ logs (trace w3)
        = [(2%positive, "Asset manager loaded", Debug);
           (2%positive, "Asset manager destroyed", Debug)].
Proof.
  intros w. split; [reflexivity|].
  destruct (manager_lifetime_keeps_bundles (Some 1%positive) (Some 2%positive)
              A (bundle full) 0 w eq_refl)
    as (this & w1 & r & this' & w2 & w3 & Hnew & Hload & Hend & Hkept & _ & Hlogs).
  exists this, w1, r, this', w2, w3.
  split; [exact Hnew|]. split; [exact Hload|]. split; [exact Hend|].
  split; [by eexists|exact Hlogs].
Defined.

(** The source still finds the image of [B] after it was cloned. *)
Lemma clone_leaves_source_lookups_witness :
  let this := manager [Some A; Some B] in
  let w := world [(A, silent); (B, full)] in
  Forall (live (heap w)) (AssetManager.m_bundleList this)
  ∧ ∃ current w',
      AssetManager.clone 0 this w = Done current w'
      ∧ result_of (AssetManager.loadImage to_string this 3 "fireball" w')
        = Some (Some good_image).
Proof.
  intros this w.
  assert (Hl : Forall (live (heap w)) (AssetManager.m_bundleList this))
    by all_live.
  split; [exact Hl|].
  destruct (clone_leaves_source_lookups to_string 0 this w Hl)
    as (current & w' & Hrun & Himage & _).
  exists current, w'. split; [exact Hrun|].
  by rewrite Himage.
Defined.

End MoreExamples.
